(** * Verification of the dummy historical data generator

    A shallow embedding of [docs/dummy_data.py]: the row generator
    [generate_random_data] and the file writer [create_csv_file], with the
    parts of the Python runtime they call ([random], [csv], [set], [str])
    modelled next to them.

    Conventions.
    - A Python [str] is a [string] holding its UTF-8 bytes; this is also
      what ends up in the file, which is opened with [encoding='utf-8'].
    - A Python [int] is a [Z].
    - The random source is an explicit state threaded through the calls.
    - A raised exception is a value of [result]. *)

From Stdlib Require Import ZArith List String Ascii Bool Lia Arith.
From Stdlib Require Import Permutation Sorted.
Import ListNotations.
Local Open Scope string_scope.
Local Open Scope Z_scope.

(** ** Exceptions and results *)

Inductive exn : Type :=
| ValueError
| IndexError.

Inductive result (A : Type) : Type :=
| Ok (a : A)
| Raise (e : exn).

Arguments Ok {A} a.
Arguments Raise {A} e.

(** ** The random source

    The generator's state is a tape of draws and a read position.  A draw
    stands for one outcome of the library's [_randbelow], before it is
    brought into the range asked for; how many bits of the generator the
    library spends on an outcome is not modelled.  The tape is
    arbitrary. *)

Record rng : Type := mkRng { tape : nat -> Z; pos : nat }.

Definition advance (s : rng) : rng := mkRng (tape s) (S (pos s)).

(** ** Effects

    A computation runs on a state and either returns a value or raises;
    the state it leaves behind is kept in both cases. *)

Module StateExn.

Definition M (S A : Type) : Type := S -> result A * S.

Definition ret {S A} (a : A) : M S A := fun s => (Ok a, s).

Definition raise {S A} (e : exn) : M S A := fun s => (Raise e, s).

Definition bind {S A B} (m : M S A) (k : A -> M S B) : M S B :=
  fun s =>
    match m s with
    | (Ok a, s') => k a s'
    | (Raise e, s') => (Raise e, s')
    end.

End StateExn.
Import StateExn.

Declare Scope monad_scope.
Delimit Scope monad_scope with monad.
Notation "x <- m ;; k" := (bind m (fun x => k))
  (at level 61, m at next level, right associativity) : monad_scope.
Notation "m ;;; k" := (bind m (fun _ => k))
  (at level 61, right associativity) : monad_scope.
Local Open Scope monad_scope.

(** Computations that only touch the random source. *)
Definition Rand (A : Type) : Type := M rng A.

(** [len(seq)] *)
Definition len {A} (l : list A) : Z := Z.of_nat (List.length l).

(** [random._randbelow(n)], for [0 < n]: the next draw, brought into
    [0, n). *)
Definition randbelow (n : Z) : Rand Z :=
  fun s => (Ok (tape s (pos s) mod n), advance s).

(** [random.randint(a, b)] is [randrange(a, b + 1)]: an integer of
    [a, b], [ValueError] on an empty range. *)
Definition randint (a b : Z) : Rand Z :=
  let width := b + 1 - a in
  if width <=? 0 then raise ValueError
  else j <- randbelow width ;; ret (a + j).

(** [random.choice(seq)]: [seq[randbelow(len(seq))]], [IndexError] on an
    empty sequence. *)
Definition choice {A} (seq : list A) : Rand A :=
  match seq with
  | [] => raise IndexError
  | _ =>
      j <- randbelow (len seq) ;;
      match nth_error seq (Z.to_nat j) with
      | Some x => ret x
      | None => raise IndexError
      end
  end.

(** The pool without its element at index [j]. *)
Fixpoint remove_at {A} (j : nat) (pool : list A) : list A :=
  match pool, j with
  | [], _ => []
  | _ :: t, O => t
  | x :: t, S j' => x :: remove_at j' t
  end.

(** A selection loop for [sample]: [k] times, draw an index into what is
    left of the pool and take that element out.  This is a stand-in, not
    the loop of the library, which fills the hole with the last element
    of the pool or, on a large population, draws again when an index
    comes twice; it returns the same selection as the library when the
    indices drawn decrease, and in every case [k] elements at pairwise
    distinct positions of the population. *)
Fixpoint sample_loop {A} (k : nat) (pool : list A) : Rand (list A) :=
  match k with
  | O => ret []
  | S k' =>
      j <- randbelow (len pool) ;;
      match nth_error pool (Z.to_nat j) with
      | Some x =>
          rest <- sample_loop k' (remove_at (Z.to_nat j) pool) ;;
          ret (x :: rest)
      | None => raise IndexError
      end
  end.

(** A stand-in for [random.sample(population, k)] with what its
    documentation promises: [k] elements at pairwise distinct positions
    of the population, in selection order; [ValueError] when the sample
    is negative or larger than the population. *)
Definition sample {A} (population : list A) (k : Z) : Rand (list A) :=
  if (k <? 0) || (len population <? k) then raise ValueError
  else sample_loop (Z.to_nat k) population.

(** ** Strings *)

Definition dquote : ascii := "034"%char.
Definition semicolon : ascii := ";"%char.
Definition LF : ascii := "010"%char.
Definition CR : ascii := "013"%char.

(** [sep.join(items)] *)
Definition join (sep : string) (items : list string) : string :=
  String.concat sep items.

Definition digit_char (d : Z) : ascii := ascii_of_nat (48 + Z.to_nat d).

Fixpoint digits_acc (fuel : nat) (n : Z) (acc : string) : string :=
  match fuel with
  | O => acc
  | S fuel' =>
      let acc' := String (digit_char (n mod 10)) acc in
      if n / 10 =? 0 then acc' else digits_acc fuel' (n / 10) acc'
  end.

(** [str(n)], as an f-string formats an [int]: the decimal digits, most
    significant first, with a minus sign for a negative number. *)
Definition str_int (n : Z) : string :=
  let digits m := digits_acc (S (Z.to_nat (Z.log2 m))) m "" in
  if n <? 0 then String "-"%char (digits (- n)) else digits n.

(** ** Sets of strings

    [list(set(xs))] lists the distinct elements of [xs] in the iteration
    order of the set, which the program text does not fix: CPython places
    a string by its hash, salted per interpreter process, and by what the
    table held before.  The stand-in lists the distinct elements in the
    order of a key [str_hash]; every listing of them is the order of some
    key. *)

Fixpoint insert_by (h : string -> Z) (x : string) (l : list string)
  : list string :=
  match l with
  | [] => [x]
  | y :: t => if h x <=? h y then x :: l else y :: insert_by h x t
  end.

Definition list_of_set (h : string -> Z) (xs : list string) : list string :=
  fold_right (insert_by h) [] (nodup string_dec xs).

(** ** The vocabularies of [generate_random_data] *)

Definition burger_adjectives : list string :=
  ["Spicy"; "Savory"; "Smoky"; "Sweet"; "Classic"; "Hearty"; "Zesty";
   "Tangy"; "Bold"; "Crispy"; "Juicy"; "Sassy"; "Fiery"; "Cool"; "Rich";
   "Roasted"; "Smothered"; "Charred"].

Definition burger_nouns : list string :=
  ["Rancher"; "Outlaw"; "Gourmet"; "Titan"; "Maverick"; "Patriot"; "King";
   "Queen"; "Warrior"; "Legend"; "Voyager"; "Nomad"; "Wrangler"; "Hunter";
   "Trapper"].

Definition toppings : list string :=
  ["jalape√±o poppers"; "bacon"; "cheddar cheese"; "smoked brisket";
   "crispy onion straws"; "BBQ sauce"; "avocado"; "sprouts"; "vegan aioli";
   "pepper jack cheese"; "sriracha mayo"; "blue cheese crumbles";
   "caramelized onions"; "bacon jam"; "tzatziki sauce"; "cucumber";
   "red onion"; "feta cheese"; "pineapple-glaze"; "swiss cheese";
   "fried egg"; "mushrooms"; "chorizo"; "salsa"; "guacamole";
   "pickled red cabbage"; "pulled pork"; "provolone"; "arugula";
   "roasted red peppers"; "goat cheese"; "pesto"].

Definition buns : list string :=
  ["brioche bun"; "pretzel bun"; "sesame seed bun"; "potato bun";
   "gluten-free bun"; "ciabatta roll"; "kaiser roll"; "rye bun"].

Definition shared_beers : list string :=
  ["Lagunitas IPA"; "Sierra Nevada Pale Ale"; "New Belgium Fat Tire";
   "Stone IPA"; "Bell's Two Hearted Ale"; "Modelo Especial"; "Corona Extra";
   "Founders All Day IPA"; "Heineken"; "Pabst Blue Ribbon";
   "Blue Moon Belgian White"; "Coors Light"; "Michelob Ultra"; "Miller Lite";
   "Bud Light"; "Stella Artois"; "Yuengling Lager"; "Shiner Bock";
   "Heineken 0.0"; "Lagunitas Daytime IPA"; "Stone Delicious IPA";
   "Sam Adams Boston Lager"; "Dogfish Head 60 Minute IPA";
   "New Belgium Voodoo Ranger IPA"; "Guinness Draught";
   "Firestone Walker 805"; "Sierra Nevada Hazy Little Thing";
   "Anchor Steam Beer"; "Founders Kentucky Breakfast Stout";
   "Oskar Blues Dale's Pale Ale"; "Allagash White";
   "Deschutes Fresh Squeezed IPA"; "Troegs Perpetual IPA";
   "Goose Island IPA"; "SweetWater 420 Pale Ale"; "Narragansett Lager";
   "Victory Golden Monkey"; "Cigar City Jai Alai IPA";
   "Stone Arrogant Bastard Ale"; "Fat Tire Amber Ale";
   "Great Lakes Dortmunder Gold"; "Left Hand Milk Stout";
   "Dogfish Head 90 Minute IPA"; "Oskar Blues Old Chub"; "Brooklyn Lager";
   "Bell's Oberon Ale"; "Rogue Dead Guy Ale"; "Ballast Point Sculpin IPA";
   "21st Amendment Brew Free! or Die IPA"; "Surly Furious IPA";
   "Kona Big Wave Golden Ale"].

Definition tap_only_beers : list string :=
  ["Pliny the Elder"; "Russian River Blind Pig IPA"; "Hill Farmstead Susan";
   "Tree House Julius"; "The Alchemist Heady Topper";
   "Bell's Expedition Stout"; "Toppling Goliath King Sue";
   "3 Floyds Zombie Dust"; "Trillium Congress Street IPA";
   "WeldWerks Juicy Bits"; "Other Half Double Dry Hopped";
   "Monkish Foggy Glasses"; "Prairie Artisan Ales Bomb!";
   "Avery The Reverend"; "Lost Abbey Devotion Ale"; "Cantillon Gueuze";
   "Orval Trappist Ale"; "Chimay Blue"; "Rochefort 10"; "Westvleteren 12";
   "Fremont Bourbon Barrel Aged Dark Star"; "Founders Breakfast Stout";
   "Surly Darkness"; "Dogfish Head Palo Santo Marron";
   "North Coast Old Rasputin"; "Great Lakes Edmund Fitzgerald Porter";
   "Half Acre Daisy Cutter Pale Ale"; "New Glarus Spotted Cow";
   "Perennial Artisan Ales Abraxas"; "Jester King Le Petit Prince";
   "Deschutes The Abyss"; "Troegs Nugget Nectar"; "Alesmith Speedway Stout";
   "Modern Times Fortunate Islands"; "Firestone Walker Pivo Pils";
   "Green Flash West Coast IPA"; "Port Brewing Hop 15";
   "Pizza Port Chronic Amber Ale"; "Societe The Pupil IPA"; "Alesmith IPA";
   "Karl Strauss Red Trolley Ale"; "Stone Ripper Pale Ale";
   "Sierra Nevada Torpedo Extra IPA"; "KBS"; "SweetWater IPA";
   "Creature Comforts Tropicalia"; "Funky Buddha Last Snow";
   "Goose Island Bourbon County Brand Stout"].

Definition can_only_beers : list string :=
  ["White Claw Hard Seltzer Mango"; "Truly Wild Berry Seltzer"; "Tecate";
   "Angry Orchard Crisp Apple"; "Strongbow Original Dry Cider";
   "Smirnoff Ice"; "High Noon Pineapple"; "Cutwater Tequila Margarita";
   "Twisted Tea Original"; "Mike's Hard Lemonade"; "Nutrl Watermelon";
   "Simply Spiked Lemonade"; "Hard Seltzer Variety Packs";
   "Henry's Hard Soda"; "Spindrift Spiked"; "Topo Chico Hard Seltzer";
   "Press Seltzer"; "Flying Embers Hard Kombucha"; "JuneShine Hard Kombucha";
   "Dogfish Head SeaQuench Ale"; "Two Roads Two Juicy";
   "Jack Daniel's Lynchburg Lemonade"; "Old Style"; "Coors Banquet";
   "Busch Light"; "Keystone Light"; "Pabst Blue Ribbon Easy";
   "Miller High Life"; "Natural Light"; "Bud Ice"; "Genesee Cream Ale";
   "Red Stripe Lager"; "Narragansett Fresh Catch";
   "Voodoo Ranger Juice Force IPA"; "Odell 90 Shilling Ale";
   "Southern Tier Pumking Imperial Ale"; "Dogfish Head Punkin Ale";
   "Wicked Weed Pernicious IPA"; "Duvel Belgian Golden Ale";
   "Delirium Tremens"; "Corsendonk Dubbel"; "Lindemans Framboise Lambic";
   "Chimay White"; "Stella Artois Cidre";
   "Oskar Blues Mama's Little Yella Pils"; "21st Amendment El Sully";
   "Ska Modus Hoperandi"; "Uinta Cutthroat Pale Ale"; "New Glarus Moon Man"].

Definition sticker_types : list string :=
  [".png"; ".jpg"; ".svg"].

(** ** [generate_random_data] *)

Definition event_prefix : string :=
  "https://www.google.com/search?q=https://facebook.com/events/".

Section Generator.

(** The key by which the sets of this interpreter list their elements. *)
Variable str_hash : string -> Z.

Definition generate_random_data : Rand (list string) :=
  sub_tap <- sample shared_beers (Z.min (len shared_beers) 15) ;;
  let real_tap_beers := list_of_set str_hash (tap_only_beers ++ sub_tap) in
  sub_can <- sample shared_beers (Z.min (len shared_beers) 15) ;;
  let real_can_beers := list_of_set str_hash (can_only_beers ++ sub_can) in
  burger_adjective <- choice burger_adjectives ;;
  burger_noun <- choice burger_nouns ;;
  num_toppings <- randint 2 4 ;;
  selected_toppings <- sample toppings num_toppings ;;
  bun <- choice buns ;;
  let burger_name := "The " ++ burger_adjective ++ " " ++ burger_noun in
  let burger_description :=
    burger_name ++ " - " ++ join ", " selected_toppings
      ++ " on a " ++ bun in
  num_tap_beers <- randint 1 4 ;;
  selected_tap_beers <- sample real_tap_beers num_tap_beers ;;
  let tap_beers_str := join ", " selected_tap_beers in
  num_can_beers <- randint 4 6 ;;
  selected_can_beers <- sample real_can_beers num_can_beers ;;
  let can_beers_str := join ", " selected_can_beers in
  event_id <- randint 1000000 9999999 ;;
  let facebook_event := event_prefix ++ str_int event_id in
  sticker_id <- randint 100 999 ;;
  sticker_type <- choice sticker_types ;;
  let sticker_name := "sticker" ++ str_int sticker_id ++ sticker_type in
  ret [burger_description; tap_beers_str; can_beers_str;
       facebook_event; sticker_name].

End Generator.


(** ** The CSV writer

    [csv.writer(file, delimiter=';', quoting=csv.QUOTE_ALL)] with the
    defaults it leaves alone: the double quote as quote character, a quote
    inside a field doubled, line terminator CR LF. *)

Fixpoint escape (f : string) : string :=
  match f with
  | EmptyString => EmptyString
  | String c r =>
      if Ascii.eqb c dquote then String dquote (String dquote (escape r))
      else String c (escape r)
  end.

Definition quote_field (f : string) : string :=
  String dquote (escape f ++ String dquote EmptyString).

Definition lineterminator : string := String CR (String LF EmptyString).

(** The text of one record, without its terminator. *)
Definition csv_record (row : list string) : string :=
  join ";" (map quote_field row).

(** What [writer.writerow(row)] appends to the file. *)
Definition csv_line (row : list string) : string :=
  csv_record row ++ lineterminator.

(** ** The world of [create_csv_file]: the random source, the files and
    the standard output. *)

Record world : Type := mkWorld {
  rand : rng;
  files : string -> option string;
  stdout : list string
}.

Definition IO (A : Type) : Type := M world A.

(** Running a computation on the random source inside the world. *)
Definition lift_rand {A} (m : Rand A) : IO A :=
  fun w =>
    let (r, s') := m (rand w) in
    (r, mkWorld s' (files w) (stdout w)).

Definition set_file (path content : string) (w : world) : world :=
  mkWorld (rand w)
          (fun p => if String.eqb p path then Some content else files w p)
          (stdout w).

Definition file_content (path : string) (w : world) : string :=
  match files w path with
  | Some c => c
  | None => EmptyString
  end.

(** [open(path, 'w', newline='')]: the file is created or truncated; with
    [newline=''] what is written reaches the file untranslated. *)
Definition open_w (path : string) : IO unit :=
  fun w => (Ok tt, set_file path EmptyString w).

Definition write (path data : string) : IO unit :=
  fun w => (Ok tt, set_file path (file_content path w ++ data) w).

Definition writerow (path : string) (row : list string) : IO unit :=
  write path (csv_line row).

Definition print (line : string) : IO unit :=
  fun w => (Ok tt, mkWorld (rand w) (files w) (stdout w ++ [line])%list).

(** ** [create_csv_file] *)

Definition csv_path : string := "dummy_historical_data.csv".

Definition header : list string :=
  ["Historical Burger"; "Historical Tap Beers"; "Historical Can Beers";
   "Historical Facebook Event"; "Historical Sticker"].

Definition success_message (num_rows : Z) : string :=
  "Successfully generated " ++ str_int num_rows
    ++ " rows of data in 'dummy_historical_data.csv'".

Section Writer.

Variable str_hash : string -> Z.

(** [for _ in range(count)]: one generated row written per turn. *)
Fixpoint write_rows (count : nat) : IO unit :=
  match count with
  | O => ret tt
  | S count' =>
      row <- lift_rand (generate_random_data str_hash) ;;
      writerow csv_path row ;;;
      write_rows count'
  end.

(** The argument is [None] when the caller leaves [num_rows] out. *)
Definition create_csv_file (arg : option Z) : IO unit :=
  let num_rows := match arg with Some n => n | None => 500 end in
  open_w csv_path ;;;
  writerow csv_path header ;;;
  write_rows (Z.to_nat num_rows) ;;;
  print (success_message num_rows).

(** The script's entry point, [create_csv_file()]. *)
Definition main : IO unit := create_csv_file None.

End Writer.

(** ** Reading the file back

    [csv.reader(file, delimiter=';')] on the whole text of a file opened
    with [newline='']: the reader's automaton, in its default lenient
    mode, with the states it can reach without an escape character.  The
    library also refuses a field longer than its field size limit
    (131072 characters); no such check is made here. *)

Inductive reader_state : Type :=
| StartRecord
| StartField
| InField
| InQuotedField
| QuoteInQuotedField
| AfterCR.

(** The record under construction with one more field. *)
Definition push (row : list string) (field : string) : list string :=
  (row ++ [field])%list.

Definition snoc (field : string) (c : ascii) : string :=
  field ++ String c EmptyString.

Definition is_newline (c : ascii) : bool := Ascii.eqb c CR || Ascii.eqb c LF.

(** One character through the automaton: the record it completes, if any,
    and the state, field and record to go on with. *)
Definition reader_step (st : reader_state) (field : string)
  (row : list string) (c : ascii)
  : option (list string) * (reader_state * string * list string) :=
  let end_record fields :=
    (Some fields,
     (if Ascii.eqb c CR then AfterCR else StartRecord, EmptyString, [])) in
  let end_field := (None, (StartField, EmptyString, push row field)) in
  let add_char st' := (None, (st', snoc field c, row)) in
  let start_field :=
    if is_newline c then end_record (push row field)
    else if Ascii.eqb c dquote then (None, (InQuotedField, field, row))
    else if Ascii.eqb c semicolon then end_field
    else add_char InField in
  let start_record :=
    if is_newline c then end_record [] else start_field in
  match st with
  | StartRecord => start_record
  | AfterCR =>
      if Ascii.eqb c LF then (None, (StartRecord, EmptyString, []))
      else start_record
  | StartField => start_field
  | InField =>
      if is_newline c then end_record (push row field)
      else if Ascii.eqb c semicolon then end_field
      else add_char InField
  | InQuotedField =>
      if Ascii.eqb c dquote then (None, (QuoteInQuotedField, field, row))
      else add_char InQuotedField
  | QuoteInQuotedField =>
      if Ascii.eqb c dquote then add_char InQuotedField
      else if Ascii.eqb c semicolon then end_field
      else if is_newline c then end_record (push row field)
      else add_char InField
  end.

Fixpoint reader (st : reader_state) (field : string) (row : list string)
  (input : string) : list (list string) :=
  match input with
  | EmptyString =>
      match st with
      | StartRecord | AfterCR => []
      | _ => [push row field]
      end
  | String c rest =>
      match reader_step st field row c with
      | (Some record, (st', field', row')) =>
          record :: reader st' field' row' rest
      | (None, (st', field', row')) => reader st' field' row' rest
      end
  end.

Definition csv_reader (text : string) : list (list string) :=
  reader StartRecord EmptyString [] text.

(** The lines of a text, without their terminators; a line ends at LF, at
    CR LF or at a lone CR. *)
Fixpoint split_lines (cur text : string) : list string :=
  match text with
  | EmptyString =>
      match cur with EmptyString => [] | _ => [cur] end
  | String c rest =>
      if Ascii.eqb c LF then cur :: split_lines EmptyString rest
      else if Ascii.eqb c CR then
        match rest with
        | String c2 rest2 =>
            if Ascii.eqb c2 LF then cur :: split_lines EmptyString rest2
            else cur :: split_lines EmptyString rest
        | EmptyString => [cur]
        end
      else split_lines (snoc cur c) rest
  end.

Definition lines (text : string) : list string :=
  split_lines EmptyString text.


(** * Specification vocabulary *)

(** The random source [j] draws later. *)
Definition skip (j : nat) (s : rng) : rng := mkRng (tape s) (pos s + j).

(** Two random sources deliver the same next [n] draws. *)
Definition agree (n : nat) (s1 s2 : rng) : Prop :=
  forall i, (i < n)%nat -> tape s1 (pos s1 + i) = tape s2 (pos s2 + i).

(** What a sample is: as many elements as asked for, taken out of the
    population one position at a time. *)
Definition sample_of {A} (population : list A) (k : nat) (l : list A) : Prop :=
  List.length l = k /\ exists rest, Permutation (l ++ rest) population.

(** Everything one call of [generate_random_data] picks at random. *)
Record picks : Type := mkPicks {
  sub_tap : list string;
  sub_can : list string;
  adjective : string;
  noun : string;
  selected_toppings : list string;
  bun : string;
  selected_tap_beers : list string;
  selected_can_beers : list string;
  event_id : Z;
  sticker_id : Z;
  sticker_type : string
}.

Definition burger_text (adj nn : string) (tops : list string) (bn : string)
  : string :=
  ("The " ++ adj ++ " " ++ nn) ++ " - " ++ join ", " tops ++ " on a " ++ bn.

Definition event_text (n : Z) : string := event_prefix ++ str_int n.

Definition sticker_text (n : Z) (ext : string) : string :=
  "sticker" ++ str_int n ++ ext.

Definition row_of (p : picks) : list string :=
  [burger_text (adjective p) (noun p) (selected_toppings p) (bun p);
   join ", " (selected_tap_beers p);
   join ", " (selected_can_beers p);
   event_text (event_id p);
   sticker_text (sticker_id p) (sticker_type p)].

(** The pools of a call, from the subsamples it drew. *)
Abbreviation tap_pool h sub := (list_of_set h (tap_only_beers ++ sub)%list).
Abbreviation can_pool h sub := (list_of_set h (can_only_beers ++ sub)%list).

(** [l] has between [lo] and [hi] elements, pairwise distinct, all of
    [pool]. *)
Definition selection (lo hi : nat) (pool l : list string) : Prop :=
  (lo <= List.length l <= hi)%nat /\ NoDup l /\ incl l pool.

(** The field patterns. *)
Definition burger_pattern (f : string) : Prop :=
  exists adj nn tops bn,
    In adj burger_adjectives /\ In nn burger_nouns /\
    selection 2 4 toppings tops /\ In bn buns /\
    f = burger_text adj nn tops bn.

Definition tap_pattern (f : string) : Prop :=
  exists sel,
    selection 1 4 (tap_only_beers ++ shared_beers) sel /\ f = join ", " sel.

Definition can_pattern (f : string) : Prop :=
  exists sel,
    selection 4 6 (can_only_beers ++ shared_beers) sel /\ f = join ", " sel.

Definition event_pattern (f : string) : Prop :=
  exists n, 1000000 <= n <= 9999999 /\ f = event_text n.

Definition sticker_pattern (f : string) : Prop :=
  exists n ext,
    100 <= n <= 999 /\ In ext sticker_types /\ f = sticker_text n ext.

Definition row_pattern (row : list string) : Prop :=
  exists f1 f2 f3 f4 f5,
    row = [f1; f2; f3; f4; f5] /\
    burger_pattern f1 /\ tap_pattern f2 /\ can_pattern f3 /\
    event_pattern f4 /\ sticker_pattern f5.

(** Characters and fields. *)
Fixpoint all_chars (p : ascii -> bool) (s : string) : bool :=
  match s with
  | EmptyString => true
  | String c r => p c && all_chars p r
  end.

Definition is_digit (c : ascii) : bool :=
  (48 <=? nat_of_ascii c)%nat && (nat_of_ascii c <=? 57)%nat.

Definition plain_char (c : ascii) : bool :=
  negb (Ascii.eqb c semicolon || Ascii.eqb c dquote
        || Ascii.eqb c LF || Ascii.eqb c CR).

Definition nonempty (s : string) : bool :=
  match s with EmptyString => false | String _ _ => true end.

(** A field that is not empty and holds no separator, quote or line
    break. *)
Definition plain_field (f : string) : bool :=
  nonempty f && all_chars plain_char f.

(** The rows of [n] calls in a row, and the random source they leave. *)
Fixpoint generated_rows (h : string -> Z) (n : nat) (s : rng)
  : list (list string) * rng :=
  match n with
  | O => ([], s)
  | S n' =>
      match generate_random_data h s with
      | (Ok row, s') =>
          let (rows, s'') := generated_rows h n' s' in (row :: rows, s'')
      | (Raise _, s') => ([], s')
      end
  end.

(** The text of a file of records. *)
Definition csv_text (rows : list (list string)) : string :=
  fold_right (fun row text => csv_line row ++ text) EmptyString rows.

(** A record as it stands in the file when no field holds a quote: the
    fields, each between double quotes, separated by semicolons. *)
Definition quoted_record (row : list string) : string :=
  join ";" (map (fun f => String dquote (f ++ String dquote EmptyString)) row).

Definition no_newline (c : ascii) : bool :=
  negb (Ascii.eqb c LF || Ascii.eqb c CR).

(** The picks [p] are those of the call of [generate_random_data] that
    starts on the random source [s], under the string hash [h]. *)
Inductive valid_run (h : string -> Z) (s : rng) : picks -> Prop :=
| valid_run_intro st sc adj nn tops bn taps cans eid sid ext
    (k1 k2 k3 : Z) (s1 s2 s3 : rng) :
    sample shared_beers (Z.min (len shared_beers) 15) s = (Ok st, skip 15 s) ->
    sample shared_beers (Z.min (len shared_beers) 15) (skip 15 s) = (Ok sc, skip 30 s) ->
    In adj burger_adjectives ->
    In nn burger_nouns ->
    2 <= k1 <= 4 ->
    sample toppings k1 s1 = (Ok tops, skip (Z.to_nat k1) s1) ->
    In bn buns ->
    1 <= k2 <= 4 ->
    sample (tap_pool h st) k2 s2 = (Ok taps, skip (Z.to_nat k2) s2) ->
    4 <= k3 <= 6 ->
    sample (can_pool h sc) k3 s3 = (Ok cans, skip (Z.to_nat k3) s3) ->
    1000000 <= eid <= 9999999 ->
    100 <= sid <= 999 ->
    In ext sticker_types ->
    valid_run h s (mkPicks st sc adj nn tops bn taps cans eid sid ext).

(** The computation [m] decides its result on the next [k] draws at most,
    and leaves the random source moved on by the draws it took. *)
Definition reads_at_most {A} (k : nat) (m : Rand A) : Prop :=
  forall s1 s2,
    agree k s1 s2 ->
    fst (m s1) = fst (m s2)
    /\ exists j, (j <= k)%nat
                 /\ snd (m s1) = skip j s1 /\ snd (m s2) = skip j s2.

(** Two keys to list sets by, a tape and a state of the random source
    to run examples on. *)
Definition hash_by_length : string -> Z := fun x => Z.of_nat (String.length x).
Definition hash_constant : string -> Z := fun _ => 0.
Definition tape0 : nat -> Z := fun i => Z.of_nat i * 7919 + 13.
Definition seed0 : rng := mkRng tape0 0.

(** A number of [d] decimal digits. *)
Definition has_digits (d : nat) (n : Z) : Prop :=
  0 <= n < 10 ^ Z.of_nat d /\ (d = 1%nat \/ 10 ^ (Z.of_nat d - 1) <= n).

(** A world to run examples in: no file yet, nothing printed. *)
Definition world0 : world := mkWorld seed0 (fun _ => None) [].

(** A string hash under which a set iterates in the order of [target]:
    every string is hashed to its position there. *)
Fixpoint order_hash (target : list string) (x : string) : Z :=
  match target with
  | [] => 0
  | y :: t => if String.eqb x y then 0 else 1 + order_hash t x
  end.

(** The steps of the call of [generate_random_data] that starts on the
    random source [s] under the string hash [h], each with the state it
    runs on and the state it leaves. *)
Inductive run_steps (h : string -> Z) (s : rng) : picks -> nat -> Prop :=
| run_steps_intro st sc adj nn tops bn taps cans eid sid ext
    (k1 k2 k3 : Z) :
    let n1 := (33 + Z.to_nat k1)%nat in
    let n2 := (n1 + 1 + 1 + Z.to_nat k2)%nat in
    let n3 := (n2 + 1 + Z.to_nat k3)%nat in
    sample shared_beers (Z.min (len shared_beers) 15) s
      = (Ok st, skip 15 s) ->
    sample shared_beers (Z.min (len shared_beers) 15) (skip 15 s)
      = (Ok sc, skip 30 s) ->
    choice burger_adjectives (skip 30 s) = (Ok adj, skip 31 s) ->
    choice burger_nouns (skip 31 s) = (Ok nn, skip 32 s) ->
    randint 2 4 (skip 32 s) = (Ok k1, skip 33 s) ->
    sample toppings k1 (skip 33 s) = (Ok tops, skip n1 s) ->
    choice buns (skip n1 s) = (Ok bn, skip (n1 + 1) s) ->
    randint 1 4 (skip (n1 + 1) s) = (Ok k2, skip (n1 + 1 + 1) s) ->
    sample (tap_pool h st) k2 (skip (n1 + 1 + 1) s) = (Ok taps, skip n2 s) ->
    randint 4 6 (skip n2 s) = (Ok k3, skip (n2 + 1) s) ->
    sample (can_pool h sc) k3 (skip (n2 + 1) s) = (Ok cans, skip n3 s) ->
    randint 1000000 9999999 (skip n3 s) = (Ok eid, skip (n3 + 1) s) ->
    randint 100 999 (skip (n3 + 1) s) = (Ok sid, skip (n3 + 1 + 1) s) ->
    choice sticker_types (skip (n3 + 1 + 1) s)
      = (Ok ext, skip (n3 + 1 + 1 + 1) s) ->
    run_steps h s (mkPicks st sc adj nn tops bn taps cans eid sid ext)
      (n3 + 1 + 1 + 1).

(** A string without comma. *)
Definition comma_free (x : string) : bool :=
  all_chars (fun c => negb (Ascii.eqb c ","%char)) x.

(** What may stand between the separators of a joined field: a string
    that is not empty and holds no comma. *)
Definition entry (x : string) : bool := nonempty x && comma_free x.

(** The occurrences of a character in a string. *)
Fixpoint count_char (c : ascii) (x : string) : nat :=
  match x with
  | EmptyString => O
  | String d r => (if Ascii.eqb d c then 1 else 0) + count_char c r
  end.

(** Membership in a list of strings, computed. *)
Definition mem (x : string) (l : list string) : bool :=
  existsb (String.eqb x) l.

(** The lists [a] and [b] share no element. *)
Definition disjointb (a b : list string) : bool :=
  forallb (fun x => negb (mem x b)) a.

(** * The library as a parameter

    [generate_random_data] calls [random.sample], [random.choice],
    [random.randint] and turns two sets into lists.  None of these is code
    of the script, and [sample], [randbelow] and [list_of_set] above are
    stand-ins that keep what the library documents, not its algorithms.
    Here the generator is written once more over any library, and a
    library is lawful when it keeps that documentation. *)

Record Library (S : Type) : Type := mkLibrary {
  lib_randint : Z -> Z -> M S Z;
  lib_choice : list string -> M S string;
  lib_sample : list string -> Z -> M S (list string);
  lib_list_of_set : list string -> list string
}.

Arguments mkLibrary {S} _ _ _ _.
Arguments lib_randint {S} _ _ _ _.
Arguments lib_choice {S} _ _ _.
Arguments lib_sample {S} _ _ _ _.
Arguments lib_list_of_set {S} _ _.

(** The elements of a population at the given positions, in that order. *)
Definition select (population : list string) (positions : list nat)
  : list string :=
  map (fun i => nth i population EmptyString) positions.

(** What the documentation of the library promises.  [randint(a, b)] is an
    integer of [a, b]; [choice] is an element of its sequence; [sample]
    takes [k] elements at pairwise distinct positions, and which
    positions depends on the size of the population, on [k] and on the
    random source, not on what the population holds; a set lists each of
    its elements once. *)
Record Lawful {S : Type} (lib : Library S) : Prop := mkLawful {
  law_randint :
    forall a b s, a <= b ->
      exists r s', lib_randint lib a b s = (Ok r, s') /\ a <= r <= b;
  law_choice :
    forall seq s, seq <> [] ->
      exists x s', lib_choice lib seq s = (Ok x, s') /\ In x seq;
  law_sample :
    forall n k s, 0 <= k <= Z.of_nat n ->
      exists positions s',
        List.length positions = Z.to_nat k
        /\ NoDup positions
        /\ Forall (fun i => (i < n)%nat) positions
        /\ forall population,
             List.length population = n ->
             lib_sample lib population k s
             = (Ok (select population positions), s');
  law_list_of_set :
    forall xs,
      NoDup (lib_list_of_set lib xs)
      /\ forall x, In x (lib_list_of_set lib xs) <-> In x xs
}.

Section GeneratorOverLibrary.

Variable S : Type.
Variable lib : Library S.

(** [generate_random_data], line by line, over the library [lib]. *)
Definition generate_random_data_with : M S (list string) :=
  sub_tap <- lib_sample lib shared_beers (Z.min (len shared_beers) 15) ;;
  let real_tap_beers := lib_list_of_set lib (tap_only_beers ++ sub_tap) in
  sub_can <- lib_sample lib shared_beers (Z.min (len shared_beers) 15) ;;
  let real_can_beers := lib_list_of_set lib (can_only_beers ++ sub_can) in
  burger_adjective <- lib_choice lib burger_adjectives ;;
  burger_noun <- lib_choice lib burger_nouns ;;
  num_toppings <- lib_randint lib 2 4 ;;
  selected_toppings <- lib_sample lib toppings num_toppings ;;
  bun <- lib_choice lib buns ;;
  let burger_name := "The " ++ burger_adjective ++ " " ++ burger_noun in
  let burger_description :=
    burger_name ++ " - " ++ join ", " selected_toppings
      ++ " on a " ++ bun in
  num_tap_beers <- lib_randint lib 1 4 ;;
  selected_tap_beers <- lib_sample lib real_tap_beers num_tap_beers ;;
  let tap_beers_str := join ", " selected_tap_beers in
  num_can_beers <- lib_randint lib 4 6 ;;
  selected_can_beers <- lib_sample lib real_can_beers num_can_beers ;;
  let can_beers_str := join ", " selected_can_beers in
  event_id <- lib_randint lib 1000000 9999999 ;;
  let facebook_event := event_prefix ++ str_int event_id in
  sticker_id <- lib_randint lib 100 999 ;;
  sticker_type <- lib_choice lib sticker_types ;;
  let sticker_name := "sticker" ++ str_int sticker_id ++ sticker_type in
  ret [burger_description; tap_beers_str; can_beers_str;
       facebook_event; sticker_name].

(** The library calls of the call of [generate_random_data] that starts
    in state [s], in the order of the source, each on the state the call
    before it left: [run_with s p s'] when the calls return the picks [p]
    and the last one leaves [s']. *)
Inductive run_with (s : S) : picks -> S -> Prop :=
| run_with_intro st sc adj nn tops bn taps cans eid sid ext
    (k1 k2 k3 : Z) (s1 s2 s3 s4 s5 s6 s7 s8 s9 s10 s11 s12 s13 s14 : S) :
    lib_sample lib shared_beers (Z.min (len shared_beers) 15) s
      = (Ok st, s1) ->
    lib_sample lib shared_beers (Z.min (len shared_beers) 15) s1
      = (Ok sc, s2) ->
    lib_choice lib burger_adjectives s2 = (Ok adj, s3) ->
    lib_choice lib burger_nouns s3 = (Ok nn, s4) ->
    lib_randint lib 2 4 s4 = (Ok k1, s5) ->
    lib_sample lib toppings k1 s5 = (Ok tops, s6) ->
    lib_choice lib buns s6 = (Ok bn, s7) ->
    lib_randint lib 1 4 s7 = (Ok k2, s8) ->
    lib_sample lib (lib_list_of_set lib (tap_only_beers ++ st)) k2 s8
      = (Ok taps, s9) ->
    lib_randint lib 4 6 s9 = (Ok k3, s10) ->
    lib_sample lib (lib_list_of_set lib (can_only_beers ++ sc)) k3 s10
      = (Ok cans, s11) ->
    lib_randint lib 1000000 9999999 s11 = (Ok eid, s12) ->
    lib_randint lib 100 999 s12 = (Ok sid, s13) ->
    lib_choice lib sticker_types s13 = (Ok ext, s14) ->
    run_with s (mkPicks st sc adj nn tops bn taps cans eid sid ext) s14.

End GeneratorOverLibrary.

Arguments generate_random_data_with {S} lib _.
Arguments run_with {S} lib s _ _.

(** The stand-ins above, as a library. *)
Definition model_library (h : string -> Z) : Library rng :=
  mkLibrary randint choice sample (list_of_set h).

(** A set that lists its elements in an order looked up in a table: the
    first listing of the table with the elements of [xs], and the distinct
    elements of [xs] as they come when the table has none. *)
Definition same_elements (o xs : list string) : bool :=
  forallb (fun x => mem x xs) o && forallb (fun x => mem x o) xs.

Definition nodupb (l : list string) : bool :=
  Nat.eqb (List.length (nodup string_dec l)) (List.length l).

Definition table_list_of_set (table : list (list string))
  (xs : list string) : list string :=
  match find (fun o => nodupb o && same_elements o xs) table with
  | Some o => o
  | None => nodup string_dec xs
  end.

(** The value of a string of decimal digits. *)
Definition digit_value (c : ascii) : Z := Z.of_nat (nat_of_ascii c) - 48.

Fixpoint decimal_value_acc (acc : Z) (digits : string) : Z :=
  match digits with
  | EmptyString => acc
  | String c r => decimal_value_acc (10 * acc + digit_value c) r
  end.

Definition decimal_value (digits : string) : Z := decimal_value_acc 0 digits.

(** The draws of one call, as indices: within each sample they decrease
    and stay below what is left of the population, so that no index comes
    twice and taking an element out moves none of those taken later. *)
Definition steady_block : list Z :=
  [36; 35; 34; 33; 32; 31; 30; 29; 28; 27; 26; 25; 24; 23; 22;
   14; 13; 12; 11; 10; 9; 8; 7; 6; 5; 4; 3; 2; 1; 0;
   3; 5; 1; 20; 10; 5; 2; 2; 40; 30; 7; 0; 50; 33; 12; 1;
   234567; 23; 0].

(** A random source that delivers [steady_block] again and again. *)
Definition steady_source : rng :=
  mkRng (fun i => nth (i mod 49) steady_block 0) 0.

(** The tap pool of [steady_source] as CPython 3.11 lists it with
    [PYTHONHASHSEED=1]. *)
Definition tap_order_seed1 : list string :=
  ["Sierra Nevada Torpedo Extra IPA"; "Troegs Nugget Nectar";
   "Anchor Steam Beer"; "New Glarus Spotted Cow";
   "Dogfish Head 60 Minute IPA"; "Societe The Pupil IPA"; "Alesmith IPA";
   "Victory Golden Monkey"; "Chimay Blue"; "Other Half Double Dry Hopped";
   "Goose Island IPA"; "Oskar Blues Dale's Pale Ale";
   "Monkish Foggy Glasses"; "North Coast Old Rasputin"; "Westvleteren 12";
   "Toppling Goliath King Sue"; "Narragansett Lager";
   "Stone Ripper Pale Ale"; "Troegs Perpetual IPA"; "Pliny the Elder";
   "Lost Abbey Devotion Ale"; "Deschutes The Abyss"; "Avery The Reverend";
   "Alesmith Speedway Stout"; "Pizza Port Chronic Amber Ale";
   "Creature Comforts Tropicalia"; "Karl Strauss Red Trolley Ale";
   "SweetWater 420 Pale Ale"; "New Belgium Voodoo Ranger IPA";
   "Founders Kentucky Breakfast Stout"; "Tree House Julius";
   "Trillium Congress Street IPA"; "Fremont Bourbon Barrel Aged Dark Star";
   "Founders Breakfast Stout"; "Goose Island Bourbon County Brand Stout";
   "WeldWerks Juicy Bits"; "Prairie Artisan Ales Bomb!";
   "Green Flash West Coast IPA"; "KBS"; "Firestone Walker 805";
   "Port Brewing Hop 15"; "Dogfish Head Palo Santo Marron";
   "3 Floyds Zombie Dust"; "Great Lakes Edmund Fitzgerald Porter";
   "Funky Buddha Last Snow"; "Modern Times Fortunate Islands";
   "Allagash White"; "Orval Trappist Ale"; "Jester King Le Petit Prince";
   "Sierra Nevada Hazy Little Thing"; "Russian River Blind Pig IPA";
   "The Alchemist Heady Topper"; "Surly Darkness"; "Guinness Draught";
   "Firestone Walker Pivo Pils"; "Cantillon Gueuze";
   "Bell's Expedition Stout"; "Half Acre Daisy Cutter Pale Ale";
   "Perennial Artisan Ales Abraxas"; "SweetWater IPA";
   "Deschutes Fresh Squeezed IPA"; "Rochefort 10"; "Hill Farmstead Susan"].

(** The can pool of [steady_source] as CPython 3.11 lists it with
    [PYTHONHASHSEED=1]. *)
Definition can_order_seed1 : list string :=
  ["Spindrift Spiked"; "Lindemans Framboise Lambic"; "New Glarus Moon Man";
   "Tecate"; "Truly Wild Berry Seltzer"; "Odell 90 Shilling Ale";
   "Voodoo Ranger Juice Force IPA"; "Miller Lite"; "Heineken";
   "Bell's Two Hearted Ale"; "New Belgium Fat Tire"; "Two Roads Two Juicy";
   "Red Stripe Lager"; "Twisted Tea Original"; "Corona Extra";
   "Topo Chico Hard Seltzer"; "Bud Light"; "Corsendonk Dubbel";
   "High Noon Pineapple"; "Duvel Belgian Golden Ale";
   "21st Amendment El Sully"; "Michelob Ultra"; "Keystone Light";
   "Modelo Especial"; "Angry Orchard Crisp Apple";
   "Southern Tier Pumking Imperial Ale"; "Pabst Blue Ribbon Easy"; "Bud Ice";
   "Chimay White"; "Strongbow Original Dry Cider"; "Founders All Day IPA";
   "Henry's Hard Soda"; "Narragansett Fresh Catch"; "Smirnoff Ice";
   "Nutrl Watermelon"; "Wicked Weed Pernicious IPA"; "Coors Light";
   "Pabst Blue Ribbon"; "Dogfish Head SeaQuench Ale";
   "Oskar Blues Mama's Little Yella Pils"; "Dogfish Head Punkin Ale";
   "Coors Banquet"; "Ska Modus Hoperandi"; "Uinta Cutthroat Pale Ale";
   "JuneShine Hard Kombucha"; "Press Seltzer"; "Lagunitas IPA";
   "Stella Artois Cidre"; "Blue Moon Belgian White";
   "Hard Seltzer Variety Packs"; "Flying Embers Hard Kombucha";
   "White Claw Hard Seltzer Mango"; "Stone IPA"; "Old Style";
   "Jack Daniel's Lynchburg Lemonade"; "Miller High Life";
   "Genesee Cream Ale"; "Simply Spiked Lemonade"; "Delirium Tremens";
   "Natural Light"; "Mike's Hard Lemonade"; "Busch Light";
   "Sierra Nevada Pale Ale"; "Cutwater Tequila Margarita"].



(** The library of the stand-ins with the sets of one interpreter
    process: the pools of [steady_source] are listed as CPython does
    under the hash seed named. *)
Definition library_seed1 : Library rng :=
  mkLibrary randint choice sample
    (table_list_of_set [tap_order_seed1; can_order_seed1]).


(** * Properties *)

(** ** The monad *)

Lemma skip_0 s : skip 0 s = s.
Proof. destruct s as [t p]. unfold skip. simpl. now rewrite Nat.add_0_r. Qed.

Lemma skip_skip i j s : skip j (skip i s) = skip (i + j) s.
Proof. unfold skip. simpl. now rewrite Nat.add_assoc. Qed.

Lemma advance_skip s : advance s = skip 1 s.
Proof. unfold advance, skip. now rewrite Nat.add_1_r. Qed.

Lemma bind_ok {S A B} (m : M S A) (k : A -> M S B) s a s' :
  m s = (Ok a, s') -> bind m k s = k a s'.
Proof. intros E. unfold bind. now rewrite E. Qed.

(** ** The primitives of [random] *)

Lemma mod_index (r n : Z) :
  0 < n -> 0 <= r mod n < n.
Proof. intros. now apply Z.mod_pos_bound. Qed.

Lemma randint_spec a b s :
  a <= b ->
  exists r, randint a b s = (Ok r, skip 1 s) /\ a <= r <= b.
Proof.
  intros Hab. unfold randint.
  destruct (Z.leb_spec (b + 1 - a) 0) as [Hw|Hw]; [lia|].
  exists (a + tape s (pos s) mod (b + 1 - a)). split.
  - unfold bind, randbelow, ret. now rewrite advance_skip.
  - pose proof (mod_index (tape s (pos s)) (b + 1 - a) Hw). lia.
Qed.

Lemma randint_ok a b s r s' :
  randint a b s = (Ok r, s') -> a <= r <= b /\ s' = skip 1 s.
Proof.
  intros E. destruct (Z_le_gt_dec a b) as [Hab|Hab].
  - destruct (randint_spec a b s Hab) as (r' & E' & Hr).
    rewrite E' in E. inversion E; subst. auto.
  - unfold randint in E.
    destruct (Z.leb_spec (b + 1 - a) 0); [discriminate | lia].
Qed.

Lemma nth_error_index {A} (l : list A) (j : Z) :
  0 <= j < len l -> exists x, nth_error l (Z.to_nat j) = Some x.
Proof.
  unfold len. intros Hj.
  destruct (nth_error l (Z.to_nat j)) as [x|] eqn:E; [now exists x|].
  apply nth_error_None in E. lia.
Qed.

Lemma choice_spec {A} (l : list A) s :
  l <> [] ->
  exists x, choice l s = (Ok x, skip 1 s) /\ In x l.
Proof.
  intros Hl. destruct l as [|y t]; [congruence|].
  unfold choice, bind, randbelow.
  set (j := tape s (pos s) mod len (y :: t)).
  assert (Hj : 0 <= j < len (y :: t)).
  { apply mod_index. unfold len. simpl List.length. lia. }
  destruct (nth_error_index _ _ Hj) as (x & Ex).
  exists x. rewrite Ex. unfold ret. rewrite advance_skip. split; [reflexivity|].
  eapply nth_error_In; eauto.
Qed.

Lemma remove_at_perm {A} (pool : list A) j x :
  nth_error pool j = Some x -> Permutation (x :: remove_at j pool) pool.
Proof.
  revert j. induction pool as [|y t IH]; intros [|j] E; simpl in *;
    try discriminate.
  - inversion E; subst. reflexivity.
  - rewrite perm_swap. constructor. now apply IH.
Qed.

Lemma remove_at_length {A} (pool : list A) j x :
  nth_error pool j = Some x ->
  S (List.length (remove_at j pool)) = List.length pool.
Proof.
  intros E. apply remove_at_perm in E. apply Permutation_length in E.
  exact E.
Qed.

Lemma sample_loop_spec {A} (k : nat) :
  forall (pool : list A) s,
    (k <= List.length pool)%nat ->
    exists l, sample_loop k pool s = (Ok l, skip k s) /\ sample_of pool k l.
Proof.
  induction k as [|k IH]; intros pool s Hk.
  - exists []. simpl. unfold ret. rewrite skip_0. repeat split.
    exists pool. reflexivity.
  - assert (Hj : 0 <= tape s (pos s) mod len pool < len pool).
    { apply mod_index. unfold len. lia. }
    destruct (nth_error_index _ _ Hj) as (x & Ex).
    pose proof (remove_at_length _ _ _ Ex) as Hlen.
    destruct (IH (remove_at (Z.to_nat (tape s (pos s) mod len pool)) pool)
                (skip 1 s)) as (l & El & Hl & rest & Hp); [lia|].
    exists (x :: l). split.
    + simpl. unfold bind at 1. unfold randbelow. rewrite Ex.
      rewrite advance_skip. unfold bind. rewrite El. unfold ret.
      now rewrite skip_skip.
    + split; [simpl; now rewrite Hl|].
      exists rest. simpl. rewrite <- (remove_at_perm _ _ _ Ex).
      now constructor.
Qed.

Lemma sample_spec {A} (population : list A) (k : Z) s :
  0 <= k <= len population ->
  exists l, sample population k s = (Ok l, skip (Z.to_nat k) s)
            /\ sample_of population (Z.to_nat k) l.
Proof.
  intros Hk. unfold sample.
  destruct (Z.ltb_spec k 0); [lia|].
  destruct (Z.ltb_spec (len population) k); [lia|]. simpl.
  apply sample_loop_spec. unfold len in Hk. lia.
Qed.

Lemma sample_ok {A} (population : list A) (k : Z) s l s' :
  sample population k s = (Ok l, s') ->
  0 <= k <= len population
  /\ sample_of population (Z.to_nat k) l /\ s' = skip (Z.to_nat k) s.
Proof.
  intros E.
  assert (Hk : 0 <= k <= len population).
  { unfold sample in E.
    destruct (Z.ltb_spec k 0); [discriminate|].
    destruct (Z.ltb_spec (len population) k); [discriminate|]. lia. }
  destruct (sample_spec population k s Hk) as (l' & E' & Hl).
  rewrite E' in E. inversion E; subst. auto.
Qed.

Lemma sample_of_incl {A} (population : list A) k l :
  sample_of population k l -> incl l population.
Proof.
  intros (_ & rest & Hp) x Hx.
  eapply Permutation_in; [exact Hp|]. apply in_or_app. now left.
Qed.

Lemma sample_of_NoDup {A} (population : list A) k l :
  NoDup population -> sample_of population k l -> NoDup l.
Proof.
  intros Hn (_ & rest & Hp).
  apply Permutation_sym in Hp.
  eapply Permutation_NoDup in Hp; [|exact Hn].
  now apply NoDup_app_remove_r in Hp.
Qed.

(** ** Sets *)

Lemma insert_by_perm h x l : Permutation (insert_by h x l) (x :: l).
Proof.
  induction l as [|y t IH]; simpl; [reflexivity|].
  destruct (h x <=? h y); [reflexivity|].
  rewrite IH. apply perm_swap.
Qed.

Lemma list_of_set_perm h xs :
  Permutation (list_of_set h xs) (nodup string_dec xs).
Proof.
  unfold list_of_set. induction (nodup string_dec xs) as [|y t IH]; simpl.
  - reflexivity.
  - rewrite insert_by_perm. now constructor.
Qed.

Lemma list_of_set_NoDup h xs : NoDup (list_of_set h xs).
Proof.
  eapply Permutation_NoDup.
  - apply Permutation_sym, list_of_set_perm.
  - apply NoDup_nodup.
Qed.

Lemma list_of_set_In h xs x : In x (list_of_set h xs) <-> In x xs.
Proof.
  split; intros Hx.
  - apply (nodup_In string_dec).
    eapply Permutation_in; [apply list_of_set_perm | exact Hx].
  - eapply Permutation_in; [apply Permutation_sym, list_of_set_perm|].
    now apply (nodup_In string_dec).
Qed.

(** A set built from a list keeps at least its distinct elements. *)
Lemma list_of_set_length_ge h (base extra : list string) :
  NoDup base ->
  (List.length base <= List.length (list_of_set h (base ++ extra)))%nat.
Proof.
  intros Hb. apply NoDup_incl_length; [exact Hb|].
  intros x Hx. apply list_of_set_In, in_or_app. now left.
Qed.


(** ** The vocabularies *)

Lemma nodup_fixpoint_NoDup (l : list string) :
  nodup string_dec l = l -> NoDup l.
Proof. intros E. rewrite <- E. apply NoDup_nodup. Qed.

Lemma shared_beers_NoDup : NoDup shared_beers.
Proof. apply nodup_fixpoint_NoDup. vm_compute. reflexivity. Qed.

Lemma tap_only_beers_NoDup : NoDup tap_only_beers.
Proof. apply nodup_fixpoint_NoDup. vm_compute. reflexivity. Qed.

Lemma can_only_beers_NoDup : NoDup can_only_beers.
Proof. apply nodup_fixpoint_NoDup. vm_compute. reflexivity. Qed.

Lemma toppings_NoDup : NoDup toppings.
Proof. apply nodup_fixpoint_NoDup. vm_compute. reflexivity. Qed.

Lemma subsample_size_15 : Z.min (len shared_beers) 15 = 15.
Proof. reflexivity. Qed.

Lemma tap_pool_size h sub : 48 <= len (tap_pool h sub).
Proof.
  pose proof (list_of_set_length_ge h tap_only_beers sub tap_only_beers_NoDup)
    as H.
  change (List.length tap_only_beers) with 48%nat in H.
  unfold len. lia.
Qed.

Lemma can_pool_size h sub : 49 <= len (can_pool h sub).
Proof.
  pose proof (list_of_set_length_ge h can_only_beers sub can_only_beers_NoDup)
    as H.
  change (List.length can_only_beers) with 49%nat in H.
  unfold len. lia.
Qed.

(** ** One call of [generate_random_data], step by step *)

Ltac run_step E :=
  etransitivity; [apply bind_ok; exact E|]; cbv beta zeta.

Lemma generate_run h s :
  exists p j,
    generate_random_data h s = (Ok (row_of p), skip j s)
    /\ valid_run h s p /\ (46 <= j <= 53)%nat.
Proof.
  destruct (sample_spec shared_beers (Z.min (len shared_beers) 15) s)
    as (st & E1 & _); [rewrite subsample_size_15; vm_compute; intuition discriminate|].
  change (Z.to_nat (Z.min (len shared_beers) 15)) with 15%nat in E1.
  destruct (sample_spec shared_beers (Z.min (len shared_beers) 15) (skip 15 s))
    as (sc & E2 & _); [rewrite subsample_size_15; vm_compute; intuition discriminate|].
  change (Z.to_nat (Z.min (len shared_beers) 15)) with 15%nat in E2.
  rewrite skip_skip in E2. simpl Nat.add in E2.
  destruct (choice_spec burger_adjectives (skip 30 s))
    as (adj & E3 & H3); [discriminate|].
  rewrite skip_skip in E3. simpl Nat.add in E3.
  destruct (choice_spec burger_nouns (skip 31 s))
    as (nn & E4 & H4); [discriminate|].
  rewrite skip_skip in E4. simpl Nat.add in E4.
  destruct (randint_spec 2 4 (skip 32 s)) as (k1 & E5 & H5); [lia|].
  rewrite skip_skip in E5. simpl Nat.add in E5.
  destruct (sample_spec toppings k1 (skip 33 s)) as (tops & E6 & _).
  { change (len toppings) with 32. lia. }
  pose proof E6 as E6'. rewrite skip_skip in E6'.
  destruct (choice_spec buns (skip (33 + Z.to_nat k1) s))
    as (bn & E7 & H7); [discriminate|].
  rewrite skip_skip in E7.
  destruct (randint_spec 1 4 (skip (33 + Z.to_nat k1 + 1) s))
    as (k2 & E8 & H8); [lia|].
  rewrite skip_skip in E8.
  destruct (sample_spec (tap_pool h st) k2 (skip (33 + Z.to_nat k1 + 1 + 1) s))
    as (taps & E9 & _).
  { pose proof (tap_pool_size h st). lia. }
  pose proof E9 as E9'. rewrite skip_skip in E9'.
  destruct (randint_spec 4 6
              (skip (33 + Z.to_nat k1 + 1 + 1 + Z.to_nat k2) s))
    as (k3 & E10 & H10); [lia|].
  rewrite skip_skip in E10.
  destruct (sample_spec (can_pool h sc) k3
              (skip (33 + Z.to_nat k1 + 1 + 1 + Z.to_nat k2 + 1) s))
    as (cans & E11 & _).
  { pose proof (can_pool_size h sc). lia. }
  pose proof E11 as E11'. rewrite skip_skip in E11'.
  destruct (randint_spec 1000000 9999999
              (skip (33 + Z.to_nat k1 + 1 + 1 + Z.to_nat k2 + 1 + Z.to_nat k3) s))
    as (eid & E12 & H12); [lia|].
  rewrite skip_skip in E12.
  destruct (randint_spec 100 999
              (skip (33 + Z.to_nat k1 + 1 + 1 + Z.to_nat k2 + 1
                     + Z.to_nat k3 + 1) s))
    as (sid & E13 & H13); [lia|].
  rewrite skip_skip in E13.
  destruct (choice_spec sticker_types
              (skip (33 + Z.to_nat k1 + 1 + 1 + Z.to_nat k2 + 1
                     + Z.to_nat k3 + 1 + 1) s))
    as (ext & E14 & H14); [discriminate|].
  rewrite skip_skip in E14.
  exists (mkPicks st sc adj nn tops bn taps cans eid sid ext).
  exists (33 + Z.to_nat k1 + 1 + 1 + Z.to_nat k2 + 1
          + Z.to_nat k3 + 1 + 1 + 1)%nat.
  split; [|split; [|lia]].
  - unfold generate_random_data.
    run_step E1. run_step E2. run_step E3. run_step E4. run_step E5.
    run_step E6'. run_step E7. run_step E8. run_step E9'. run_step E10.
    run_step E11'. run_step E12. run_step E13. run_step E14.
    reflexivity.
  - eapply valid_run_intro with (k1 := k1) (k2 := k2) (k3 := k3);
      eassumption.
Qed.

(** ** Decimal digits *)

Lemma digit_char_is_digit d : 0 <= d < 10 -> is_digit (digit_char d) = true.
Proof.
  intros Hd.
  assert (E : d = 0 \/ d = 1 \/ d = 2 \/ d = 3 \/ d = 4 \/ d = 5 \/ d = 6
              \/ d = 7 \/ d = 8 \/ d = 9) by lia.
  repeat (destruct E as [E|E]; [subst d; reflexivity|]).
  subst d; reflexivity.
Qed.

Lemma digits_acc_digits fuel :
  forall n acc,
    all_chars is_digit acc = true ->
    all_chars is_digit (digits_acc fuel n acc) = true.
Proof.
  induction fuel as [|fuel IH]; intros n acc Hacc; cbn [digits_acc];
    [exact Hacc|].
  assert (Hacc' : all_chars is_digit (String (digit_char (n mod 10)) acc) = true).
  { cbn [all_chars]. rewrite Hacc, digit_char_is_digit; [reflexivity|].
    apply Z.mod_pos_bound. lia. }
  destruct (n / 10 =? 0); [exact Hacc'|]. now apply IH.
Qed.

Lemma digits_acc_length d :
  forall fuel n acc,
    (1 <= d <= fuel)%nat -> has_digits d n ->
    String.length (digits_acc fuel n acc) = (d + String.length acc)%nat.
Proof.
  induction d as [|d IH]; intros fuel n acc Hf [Hn Hlow]; [lia|].
  destruct fuel as [|fuel]; [lia|]. cbn [digits_acc].
  destruct (Nat.eq_dec d 0) as [Hd|Hd].
  - subst d. change (10 ^ Z.of_nat 1) with 10 in Hn.
    rewrite Z.div_small by lia. reflexivity.
  - destruct Hlow as [Hlow|Hlow]; [lia|].
    replace (Z.of_nat (S d) - 1) with (Z.of_nat d) in Hlow by lia.
    rewrite Nat2Z.inj_succ, Z.pow_succ_r in Hn by lia.
    assert (Hd1 : 10 ^ Z.of_nat d = 10 * 10 ^ (Z.of_nat d - 1)).
    { rewrite <- Z.pow_succ_r by lia. f_equal. lia. }
    assert (Hpos : 0 < 10 ^ (Z.of_nat d - 1)) by (apply Z.pow_pos_nonneg; lia).
    assert (Hq : 10 ^ (Z.of_nat d - 1) <= n / 10 < 10 ^ Z.of_nat d).
    { split.
      - apply Z.div_le_lower_bound; lia.
      - apply Z.div_lt_upper_bound; lia. }
    destruct (Z.eqb_spec (n / 10) 0) as [E|_]; [lia|].
    rewrite IH.
    + cbn [String.length]. lia.
    + lia.
    + split; [lia|]. right. lia.
Qed.

Lemma str_int_digits n : 0 <= n -> all_chars is_digit (str_int n) = true.
Proof.
  intros Hn. unfold str_int. destruct (Z.ltb_spec n 0); [lia|].
  now apply digits_acc_digits.
Qed.

Lemma str_int_length d n :
  (1 <= d)%nat -> has_digits d n -> String.length (str_int n) = d.
Proof.
  intros Hd Hn. unfold str_int.
  destruct (Z.ltb_spec n 0) as [Hneg|_]; [destruct Hn; lia|].
  rewrite (digits_acc_length d); [cbn [String.length]; lia| |exact Hn].
  split; [exact Hd|].
  destruct Hn as [Hn [->|Hlow]]; [lia|].
  assert (Hlog : Z.of_nat d - 1 <= Z.log2 n).
  { transitivity (Z.log2 (10 ^ (Z.of_nat d - 1))).
    - transitivity (Z.log2 (2 ^ (Z.of_nat d - 1))).
      + rewrite Z.log2_pow2 by lia. lia.
      + apply Z.log2_le_mono. apply Z.pow_le_mono_l. lia.
    - now apply Z.log2_le_mono. }
  lia.
Qed.

Lemma event_id_digits n :
  1000000 <= n <= 9999999 -> has_digits 7 n.
Proof.
  intros Hn. split.
  - change (10 ^ Z.of_nat 7) with 10000000. lia.
  - right. change (10 ^ (Z.of_nat 7 - 1)) with 1000000. lia.
Qed.

Lemma sticker_id_digits n :
  100 <= n <= 999 -> has_digits 3 n.
Proof.
  intros Hn. split.
  - change (10 ^ Z.of_nat 3) with 1000. lia.
  - right. change (10 ^ (Z.of_nat 3 - 1)) with 100. lia.
Qed.

Lemma digit_value_char d : 0 <= d < 10 -> digit_value (digit_char d) = d.
Proof.
  intros Hd.
  assert (E : d = 0 \/ d = 1 \/ d = 2 \/ d = 3 \/ d = 4 \/ d = 5 \/ d = 6
              \/ d = 7 \/ d = 8 \/ d = 9) by lia.
  repeat (destruct E as [E|E]; [subst d; reflexivity|]).
  subst d; reflexivity.
Qed.

(** Reading the digits written for [n] after the value [a] gives [a]
    shifted by as many digits, plus [n]. *)
Lemma decimal_value_digits d :
  forall fuel n a acc,
    (1 <= d <= fuel)%nat -> has_digits d n ->
    decimal_value_acc a (digits_acc fuel n acc)
    = decimal_value_acc (a * 10 ^ Z.of_nat d + n) acc.
Proof.
  induction d as [|d IH]; intros fuel n a acc Hf [Hn Hlow]; [lia|].
  destruct fuel as [|fuel]; [lia|]. cbn [digits_acc].
  destruct (Nat.eq_dec d 0) as [Hd|Hd].
  - subst d. change (10 ^ Z.of_nat 1) with 10 in *.
    rewrite Z.div_small by lia. cbn [Z.eqb decimal_value_acc].
    rewrite Z.mod_small, digit_value_char by lia. f_equal. lia.
  - destruct Hlow as [Hlow|Hlow]; [lia|].
    replace (Z.of_nat (S d) - 1) with (Z.of_nat d) in Hlow by lia.
    rewrite Nat2Z.inj_succ, Z.pow_succ_r in * by lia.
    assert (Hd1 : 10 ^ Z.of_nat d = 10 * 10 ^ (Z.of_nat d - 1)).
    { rewrite <- Z.pow_succ_r by lia. f_equal. lia. }
    assert (Hpos : 0 < 10 ^ (Z.of_nat d - 1)) by (apply Z.pow_pos_nonneg; lia).
    assert (Hq : 10 ^ (Z.of_nat d - 1) <= n / 10 < 10 ^ Z.of_nat d).
    { split.
      - apply Z.div_le_lower_bound; lia.
      - apply Z.div_lt_upper_bound; lia. }
    destruct (Z.eqb_spec (n / 10) 0) as [E|_]; [lia|].
    rewrite IH; [| lia | split; [lia|right; lia]].
    cbn [decimal_value_acc].
    rewrite digit_value_char by (apply Z.mod_pos_bound; lia).
    f_equal. pose proof (Z.div_mod n 10). lia.
Qed.

Lemma decimal_value_str_int d n :
  (1 <= d)%nat -> has_digits d n -> decimal_value (str_int n) = n.
Proof.
  intros Hd Hn. unfold decimal_value, str_int.
  destruct (Z.ltb_spec n 0) as [Hneg|_]; [destruct Hn; lia|].
  rewrite (decimal_value_digits d); [cbn [decimal_value_acc]; lia| |exact Hn].
  split; [exact Hd|].
  destruct Hn as [Hn [->|Hlow]]; [lia|].
  assert (Hlog : Z.of_nat d - 1 <= Z.log2 n).
  { transitivity (Z.log2 (10 ^ (Z.of_nat d - 1))).
    - transitivity (Z.log2 (2 ^ (Z.of_nat d - 1))).
      + rewrite Z.log2_pow2 by lia. lia.
      + apply Z.log2_le_mono. apply Z.pow_le_mono_l. lia.
    - now apply Z.log2_le_mono. }
  lia.
Qed.

Lemma sample_selection {A} (pool : list A) k sa sb l :
  NoDup pool ->
  sample pool k sa = (Ok l, sb) ->
  List.length l = Z.to_nat k /\ NoDup l /\ incl l pool.
Proof.
  intros Hn E. apply sample_ok in E. destruct E as (_ & Hs & _).
  split; [apply Hs|]. split.
  - eapply sample_of_NoDup; eauto.
  - eapply sample_of_incl; eauto.
Qed.

(** * The row generator *)

(** C2. The first field of every generated row is
    "The {adjective} {noun} - {toppings} on a {bun}": the adjective, the
    noun and the bun are entries of their lists, the toppings are between
    two and four pairwise distinct entries of the toppings list, sampled
    without replacement and joined with ", ". *)
Theorem burger_description_shape (h : string -> Z) (s : rng) :
  exists row s' adj nn bn tops k sa sb,
    generate_random_data h s = (Ok row, s')
    /\ nth_error row 0
       = Some (("The " ++ adj ++ " " ++ nn) ++ " - " ++ join ", " tops
                 ++ " on a " ++ bn)
    /\ In adj burger_adjectives
    /\ In nn burger_nouns
    /\ In bn buns
    /\ 2 <= k <= 4
    /\ sample toppings k sa = (Ok tops, sb)
    /\ List.length tops = Z.to_nat k
    /\ NoDup tops
    /\ incl tops toppings.
Proof.
  destruct (generate_run h s) as (p & j & E & V & _).
  destruct V as [st sc adj nn tops bn taps cans eid sid ext k1 k2 k3
                   s1 s2 s3 _ _ Hadj Hnn Hk1 Etops Hbn _ _ _ _ _ _ _].
  destruct (sample_selection _ _ _ _ _ toppings_NoDup Etops)
    as (Hlen & Hnd & Hincl).
  exists (row_of (mkPicks st sc adj nn tops bn taps cans eid sid ext)),
    (skip j s), adj, nn, bn, tops, k1, s1, (skip (Z.to_nat k1) s1).
  repeat split; try assumption; lia.
Qed.

(** C5. The fourth field of every generated row is the fixed prefix
    followed by the decimal form of an integer [n] of [1000000, 9999999]
    and nothing else: seven digits, whose value is [n]. *)
Theorem event_url_shape (h : string -> Z) (s : rng) :
  exists row s' n,
    generate_random_data h s = (Ok row, s')
    /\ 1000000 <= n <= 9999999
    /\ nth_error row 3
       = Some ("https://www.google.com/search?q=https://facebook.com/events/"
                 ++ str_int n)
    /\ String.length (str_int n) = 7%nat
    /\ all_chars is_digit (str_int n) = true
    /\ decimal_value (str_int n) = n.
Proof.
  destruct (generate_run h s) as (p & j & E & V & _).
  destruct V as [st sc adj nn tops bn taps cans eid sid ext k1 k2 k3
                   s1 s2 s3 _ _ _ _ _ _ _ _ _ _ _ Heid _ _].
  exists (row_of (mkPicks st sc adj nn tops bn taps cans eid sid ext)),
    (skip j s), eid.
  split; [exact E|]. split; [exact Heid|]. split; [reflexivity|].
  split; [|split].
  - apply str_int_length; [lia|]. now apply event_id_digits.
  - apply str_int_digits. lia.
  - apply (decimal_value_str_int 7); [lia|]. now apply event_id_digits.
Qed.

(** C6. The fifth field of every generated row is "sticker", the decimal
    form of an integer [n] of [100, 999], three digits whose value is
    [n], and one of the extensions ".png", ".jpg", ".svg". *)
Theorem sticker_name_shape (h : string -> Z) (s : rng) :
  exists row s' n ext,
    generate_random_data h s = (Ok row, s')
    /\ 100 <= n <= 999
    /\ In ext [".png"; ".jpg"; ".svg"]
    /\ nth_error row 4 = Some ("sticker" ++ str_int n ++ ext)
    /\ String.length (str_int n) = 3%nat
    /\ all_chars is_digit (str_int n) = true
    /\ decimal_value (str_int n) = n.
Proof.
  destruct (generate_run h s) as (p & j & E & V & _).
  destruct V as [st sc adj nn tops bn taps cans eid sid ext k1 k2 k3
                   s1 s2 s3 _ _ _ _ _ _ _ _ _ _ _ _ Hsid Hext].
  exists (row_of (mkPicks st sc adj nn tops bn taps cans eid sid ext)),
    (skip j s), sid, ext.
  split; [exact E|]. split; [exact Hsid|]. split; [exact Hext|].
  split; [reflexivity|]. split; [|split].
  - apply str_int_length; [lia|]. now apply sticker_id_digits.
  - apply str_int_digits. lia.
  - apply (decimal_value_str_int 3); [lia|]. now apply sticker_id_digits.
Qed.

(** C9. With the vocabularies as they are, no sampling call asks for more
    than its population holds: the toppings list has at least 4 entries,
    the shared list at least 15, every tap pool at least 4 and every can
    pool at least 6; and [generate_random_data] returns a row from every
    state of the random source, it never raises. *)
Theorem generate_random_data_never_raises :
  4 <= len toppings
  /\ 15 <= len shared_beers
  /\ Z.min (len shared_beers) 15 <= len shared_beers
  /\ (forall h sub, 4 <= len (list_of_set h (tap_only_beers ++ sub)))
  /\ (forall h sub, 6 <= len (list_of_set h (can_only_beers ++ sub)))
  /\ (forall h s, exists row s', generate_random_data h s = (Ok row, s')).
Proof.
  split; [vm_compute; discriminate|].
  split; [vm_compute; discriminate|].
  split; [vm_compute; discriminate|].
  split; [intros h sub; pose proof (tap_pool_size h sub); lia|].
  split; [intros h sub; pose proof (can_pool_size h sub); lia|].
  intros h s. destruct (generate_run h s) as (p & j & E & _).
  now exists (row_of p), (skip j s).
Qed.

(** ** What a computation reads of the random source *)

Lemma agree_weaken n m s1 s2 :
  (n <= m)%nat -> agree m s1 s2 -> agree n s1 s2.
Proof. intros Hnm H i Hi. apply H. lia. Qed.

Lemma agree_skip j n s1 s2 :
  agree (j + n) s1 s2 -> agree n (skip j s1) (skip j s2).
Proof.
  intros H i Hi. unfold skip. simpl.
  rewrite <- !Nat.add_assoc. apply H. lia.
Qed.

Lemma reads_weaken {A} k k' (m : Rand A) :
  (k <= k')%nat -> reads_at_most k m -> reads_at_most k' m.
Proof.
  intros Hk Hm s1 s2 Ha.
  destruct (Hm s1 s2 (agree_weaken _ _ _ _ Hk Ha)) as (E & j & Hj & E1 & E2).
  split; [exact E|]. exists j. split; [lia|]. now split.
Qed.

Lemma reads_ret {A} (a : A) : reads_at_most 0 (ret a : Rand A).
Proof.
  intros s1 s2 _. split; [reflexivity|]. exists 0%nat.
  unfold ret. simpl. rewrite !skip_0. auto.
Qed.

Lemma reads_raise {A} e : reads_at_most 0 (raise e : Rand A).
Proof.
  intros s1 s2 _. split; [reflexivity|]. exists 0%nat.
  unfold raise. simpl. rewrite !skip_0. auto.
Qed.

Lemma reads_randbelow n : reads_at_most 1 (randbelow n).
Proof.
  intros s1 s2 Ha. unfold randbelow. simpl. split.
  - specialize (Ha 0%nat). rewrite !Nat.add_0_r in Ha. rewrite Ha; [reflexivity|lia].
  - exists 1%nat. rewrite !advance_skip. auto.
Qed.

Lemma reads_bind {A B} k1 k2 (m : Rand A) (f : A -> Rand B) :
  reads_at_most k1 m ->
  (forall a, (exists s, fst (m s) = Ok a) -> reads_at_most k2 (f a)) ->
  reads_at_most (k1 + k2) (bind m f).
Proof.
  intros Hm Hf s1 s2 Ha.
  destruct (Hm s1 s2) as (E & j & Hj & E1 & E2).
  { eapply agree_weaken; [|exact Ha]. lia. }
  unfold bind.
  destruct (m s1) as [r1 t1] eqn:M1. destruct (m s2) as [r2 t2] eqn:M2.
  simpl in E, E1, E2. subst r2 t1 t2.
  destruct r1 as [a|e].
  - destruct (Hf a) with (s1 := skip j s1) (s2 := skip j s2)
      as (E' & j' & Hj' & E1' & E2').
    + exists s1. now rewrite M1.
    + apply agree_skip. eapply agree_weaken; [|exact Ha]. lia.
    + split; [exact E'|]. exists (j + j')%nat. split; [lia|].
      rewrite E1', E2', !skip_skip. auto.
  - simpl. split; [reflexivity|]. exists j. split; [lia|]. auto.
Qed.

Lemma reads_randint a b : reads_at_most 1 (randint a b).
Proof.
  unfold randint. destruct (b + 1 - a <=? 0).
  - apply (reads_weaken 0); [lia|]. apply reads_raise.
  - change 1%nat with (1 + 0)%nat. apply reads_bind.
    + apply reads_randbelow.
    + intros j _. apply reads_ret.
Qed.

Lemma reads_choice {A} (l : list A) : reads_at_most 1 (choice l).
Proof.
  destruct l as [|y t].
  - apply (reads_weaken 0); [lia|]. apply reads_raise.
  - unfold choice. change 1%nat with (1 + 0)%nat. apply reads_bind.
    + apply reads_randbelow.
    + intros j _. destruct (nth_error (y :: t) (Z.to_nat j)).
      * apply reads_ret.
      * apply reads_raise.
Qed.

Lemma reads_sample_loop {A} k :
  forall pool : list A, reads_at_most k (sample_loop k pool).
Proof.
  induction k as [|k IH]; intros pool.
  - apply reads_ret.
  - cbn [sample_loop]. change (S k) with (1 + k)%nat. apply reads_bind.
    + apply reads_randbelow.
    + intros j _. destruct (nth_error pool (Z.to_nat j)).
      * replace k with (k + 0)%nat at 1 by lia. apply reads_bind.
        -- apply IH.
        -- intros rest _. apply reads_ret.
      * apply (reads_weaken 0); [lia|]. apply reads_raise.
Qed.

Lemma reads_sample {A} (population : list A) k n :
  k <= Z.of_nat n -> reads_at_most n (sample population k).
Proof.
  intros Hk. unfold sample.
  destruct ((k <? 0) || (len population <? k)).
  - apply (reads_weaken 0); [lia|]. apply reads_raise.
  - apply (reads_weaken (Z.to_nat k)); [lia|]. apply reads_sample_loop.
Qed.

Lemma randint_result a b r :
  (exists s, fst (randint a b s) = Ok r) -> a <= r <= b.
Proof.
  intros (s & E). destruct (randint a b s) as [x s'] eqn:R.
  simpl in E. subst x. now apply randint_ok in R.
Qed.

Ltac reads_step lemma :=
  apply reads_bind; [apply lemma | intros ? ?].

(** With the stand-ins one call reads 53 draws at most: 15 and 15 for the
    two subsamples, then one per choice and per count, and one per
    element sampled. *)
Lemma generate_reads h : reads_at_most 53 (generate_random_data h).
Proof.
  unfold generate_random_data.
  change 53%nat with
    (15 + (15 + (1 + (1 + (1 + (4 + (1 + (1 + (4 + (1 + (6 + (1 + (1 +
      (1 + 0))))))))))))))%nat.
  apply reads_bind; [apply reads_sample; vm_compute; discriminate|].
  intros sub_tap _. cbv zeta.
  apply reads_bind; [apply reads_sample; vm_compute; discriminate|].
  intros sub_can _.
  reads_step (@reads_choice string). reads_step (@reads_choice string).
  apply reads_bind; [apply reads_randint|]. intros k1 Hk1.
  apply randint_result in Hk1.
  apply reads_bind; [apply reads_sample; lia|]. intros tops _.
  reads_step (@reads_choice string).
  apply reads_bind; [apply reads_randint|]. intros k2 Hk2.
  apply randint_result in Hk2.
  apply reads_bind; [apply reads_sample; lia|]. intros taps _.
  apply reads_bind; [apply reads_randint|]. intros k3 Hk3.
  apply randint_result in Hk3.
  apply reads_bind; [apply reads_sample; lia|]. intros cans _.
  reads_step reads_randint. reads_step reads_randint.
  reads_step (@reads_choice string).
  apply reads_ret.
Qed.

Lemma subsample_facts s sub s' :
  sample shared_beers (Z.min (len shared_beers) 15) s = (Ok sub, s') ->
  len sub = Z.min 15 (len shared_beers) /\ len sub = 15
  /\ NoDup sub /\ incl sub shared_beers.
Proof.
  intros E.
  destruct (sample_selection _ _ _ _ _ shared_beers_NoDup E)
    as (Hlen & Hnd & Hincl).
  unfold len at 1 3. rewrite Hlen. repeat split; assumption.
Qed.

Lemma pool_In h (base sub : list string) x :
  In x (list_of_set h (base ++ sub)) <-> In x base \/ In x sub.
Proof. rewrite list_of_set_In. apply in_app_iff. Qed.

(** ** The iteration orders of a set

    Quantifying over the string hash is quantifying over every order in
    which a set may list its elements. *)

Section HashOrder.

Variable h : string -> Z.

Let before (a b : string) : Prop := h a < h b.

Lemma insert_by_sorted x l :
  StronglySorted before l ->
  (forall y, In y l -> h x <> h y) ->
  StronglySorted before (insert_by h x l).
Proof.
  induction l as [|y t IH]; intros Hs Hx; cbn [insert_by].
  - repeat constructor.
  - inversion Hs as [|? ? Ht Hy]; subst.
    assert (Hxy : h x <> h y) by (apply Hx; now left).
    destruct (Z.leb_spec (h x) (h y)) as [Hle|Hgt].
    + constructor; [exact Hs|]. constructor; [unfold before; lia|].
      eapply Forall_impl; [|exact Hy]. unfold before. intros z Hz. lia.
    + constructor.
      * apply IH; [exact Ht|]. intros z Hz. apply Hx. now right.
      * eapply Permutation_Forall;
          [apply Permutation_sym, insert_by_perm|].
        constructor; [unfold before; lia|exact Hy].
Qed.

Lemma strictly_sorted_unique l1 :
  forall l2,
    StronglySorted before l1 -> StronglySorted before l2 ->
    (forall x, In x l1 <-> In x l2) ->
    l1 = l2.
Proof.
  induction l1 as [|a t1 IH]; intros l2 H1 H2 Hin.
  - destruct l2 as [|b t2]; [reflexivity|].
    exfalso. apply (proj2 (Hin b)). now left.
  - destruct l2 as [|b t2]; [exfalso; apply (proj1 (Hin a)); now left|].
    inversion H1 as [|? ? Ht1 Ha]; subst.
    inversion H2 as [|? ? Ht2 Hb]; subst.
    rewrite Forall_forall in Ha, Hb. unfold before in Ha, Hb.
    assert (E : a = b).
    { destruct (proj1 (Hin a) (or_introl eq_refl)) as [E|Ia]; [now symmetry|].
      destruct (proj2 (Hin b) (or_introl eq_refl)) as [E|Ib]; [exact E|].
      specialize (Ha _ Ib). specialize (Hb _ Ia). lia. }
    subst b. f_equal. apply IH; [exact Ht1|exact Ht2|].
    intros x. split; intros Hx.
    + destruct (proj1 (Hin x) (or_intror Hx)) as [E|I]; [|exact I].
      subst x. specialize (Ha _ Hx). lia.
    + destruct (proj2 (Hin x) (or_intror Hx)) as [E|I]; [|exact I].
      subst x. specialize (Hb _ Hx). lia.
Qed.

Lemma insertion_sorted (l : list string) :
  NoDup l ->
  (forall a b, In a l -> In b l -> h a = h b -> a = b) ->
  StronglySorted before (fold_right (insert_by h) [] l).
Proof.
  induction 1 as [|a l Ha Hl IH]; intros Hinj; cbn [fold_right].
  - constructor.
  - apply insert_by_sorted.
    + apply IH. intros x y Hx Hy. apply Hinj; now right.
    + intros y Hy E.
      assert (Iy : In y l).
      { eapply Permutation_in; [|exact Hy].
        clear. induction l as [|z l IH]; cbn [fold_right]; [reflexivity|].
        rewrite insert_by_perm. now constructor. }
      apply Ha. rewrite (Hinj a y); [exact Iy|now left|now right|exact E].
Qed.

End HashOrder.

Lemma order_hash_nonneg target x : 0 <= order_hash target x.
Proof.
  induction target as [|y t IH]; cbn [order_hash]; [lia|].
  destruct (String.eqb x y); lia.
Qed.

Lemma order_hash_inj target a b :
  In a target -> In b target ->
  order_hash target a = order_hash target b -> a = b.
Proof.
  induction target as [|y t IH]; intros Ia Ib; [contradiction|].
  cbn [order_hash].
  destruct (String.eqb_spec a y) as [Ea|Na], (String.eqb_spec b y) as [Eb|Nb].
  - congruence.
  - pose proof (order_hash_nonneg t b). lia.
  - pose proof (order_hash_nonneg t a). lia.
  - intros E. apply IH; [| |lia].
    + destruct Ia; [congruence|assumption].
    + destruct Ib; [congruence|assumption].
Qed.

Lemma StronglySorted_impl_in {A} (R R' : A -> A -> Prop) l :
  (forall a b, In a l -> In b l -> R a b -> R' a b) ->
  StronglySorted R l -> StronglySorted R' l.
Proof.
  induction l as [|x l IH]; intros Himp Hs; [constructor|].
  inversion Hs as [|? ? Hl Hx]; subst. constructor.
  - apply IH; [|exact Hl]. intros a b Ia Ib. apply Himp; now right.
  - rewrite Forall_forall in *. intros y Hy.
    apply Himp; [now left|now right|now apply Hx].
Qed.

Lemma order_hash_sorted target :
  NoDup target ->
  StronglySorted (fun a b => order_hash target a < order_hash target b)
    target.
Proof.
  induction 1 as [|y t Hy Ht IH]; [constructor|].
  assert (Hne : forall z, In z t -> String.eqb z y = false).
  { intros z Hz. apply String.eqb_neq. intros ->. contradiction. }
  constructor.
  - eapply StronglySorted_impl_in; [|exact IH].
    intros a b Ia Ib Hab. cbv beta in Hab. cbn [order_hash].
    rewrite (Hne a Ia), (Hne b Ib). lia.
  - apply Forall_forall. intros z Hz. cbn [order_hash].
    rewrite String.eqb_refl, (Hne z Hz).
    pose proof (order_hash_nonneg t z). lia.
Qed.

(** Every listing [target] of the distinct elements of [xs] is the
    iteration order of the set under some string hash. *)
Lemma list_of_set_any_order (xs target : list string) :
  NoDup target ->
  (forall x, In x target <-> In x xs) ->
  list_of_set (order_hash target) xs = target.
Proof.
  intros Hn Hin.
  apply (strictly_sorted_unique (order_hash target)).
  - unfold list_of_set. apply insertion_sorted; [apply NoDup_nodup|].
    intros a b Ia Ib. apply order_hash_inj.
    + apply Hin. exact (proj1 (nodup_In string_dec xs a) Ia).
    + apply Hin. exact (proj1 (nodup_In string_dec xs b) Ib).
  - now apply order_hash_sorted.
  - intros x. rewrite list_of_set_In. symmetry. apply Hin.
Qed.

(** ** Strings and characters *)

Lemma append_assoc (a b c : string) : (a ++ b) ++ c = a ++ (b ++ c).
Proof. induction a as [|x a IH]; cbn [append]; [reflexivity|now rewrite IH]. Qed.

Lemma append_nil_r (a : string) : a ++ EmptyString = a.
Proof. induction a as [|x a IH]; cbn [append]; [reflexivity|now rewrite IH]. Qed.

Lemma snoc_append field c r : snoc field c ++ r = field ++ String c r.
Proof. unfold snoc. now rewrite append_assoc. Qed.

Lemma all_chars_app p a b :
  all_chars p (a ++ b) = all_chars p a && all_chars p b.
Proof.
  induction a as [|x a IH]; cbn [append all_chars]; [reflexivity|].
  now rewrite IH, andb_assoc.
Qed.

Lemma all_chars_impl (p q : ascii -> bool) s :
  (forall c, p c = true -> q c = true) ->
  all_chars p s = true -> all_chars q s = true.
Proof.
  intros Hpq. induction s as [|x s IH]; cbn [all_chars]; [reflexivity|].
  intros H. apply andb_true_iff in H. destruct H as [Hx Hs].
  now rewrite (Hpq _ Hx), IH.
Qed.

Lemma all_chars_join p sep items :
  all_chars p sep = true ->
  Forall (fun f => all_chars p f = true) items ->
  all_chars p (join sep items) = true.
Proof.
  intros Hsep H. unfold join. induction H as [|x l Hx Hl IH]; [reflexivity|].
  cbn [String.concat]. destruct l as [|y l]; [exact Hx|].
  now rewrite !all_chars_app, Hx, Hsep, IH.
Qed.

Lemma nonempty_app_l a b : nonempty a = true -> nonempty (a ++ b) = true.
Proof. destruct a; [discriminate|reflexivity]. Qed.

Lemma nonempty_join sep x items :
  nonempty x = true -> nonempty (join sep (x :: items)) = true.
Proof.
  intros Hx. unfold join. cbn [String.concat].
  destruct items; [exact Hx|]. now apply nonempty_app_l.
Qed.

Lemma is_digit_plain c : is_digit c = true -> plain_char c = true.
Proof.
  destruct c as [[] [] [] [] [] [] [] []]; vm_compute; intros H;
    first [reflexivity | discriminate H].
Qed.

Lemma plain_no_newline c : plain_char c = true -> no_newline c = true.
Proof.
  unfold plain_char, no_newline.
  destruct (Ascii.eqb c semicolon), (Ascii.eqb c dquote),
    (Ascii.eqb c LF), (Ascii.eqb c CR); cbn; congruence.
Qed.

Lemma plain_not_quote c : plain_char c = true -> Ascii.eqb c dquote = false.
Proof.
  unfold plain_char.
  destruct (Ascii.eqb c semicolon), (Ascii.eqb c dquote); cbn; congruence.
Qed.

Lemma plain_field_chars f :
  plain_field f = true -> all_chars plain_char f = true.
Proof. unfold plain_field. intros H. now apply andb_true_iff in H. Qed.

Lemma plain_field_intro f :
  nonempty f = true -> all_chars plain_char f = true -> plain_field f = true.
Proof. unfold plain_field. now intros -> ->. Qed.

Lemma str_int_plain n : 0 <= n -> all_chars plain_char (str_int n) = true.
Proof.
  intros Hn. eapply all_chars_impl; [exact is_digit_plain|].
  now apply str_int_digits.
Qed.

(** ** The vocabularies hold plain fields only *)

Lemma plain_vocabulary (l : list string) x :
  forallb plain_field l = true -> In x l -> plain_field x = true.
Proof. intros H. now apply forallb_forall. Qed.

Lemma burger_adjectives_plain : forallb plain_field burger_adjectives = true.
Proof. vm_compute. reflexivity. Qed.

Lemma burger_nouns_plain : forallb plain_field burger_nouns = true.
Proof. vm_compute. reflexivity. Qed.

Lemma toppings_plain : forallb plain_field toppings = true.
Proof. vm_compute. reflexivity. Qed.

Lemma buns_plain : forallb plain_field buns = true.
Proof. vm_compute. reflexivity. Qed.

Lemma shared_beers_plain : forallb plain_field shared_beers = true.
Proof. vm_compute. reflexivity. Qed.

Lemma tap_only_beers_plain : forallb plain_field tap_only_beers = true.
Proof. vm_compute. reflexivity. Qed.

Lemma can_only_beers_plain : forallb plain_field can_only_beers = true.
Proof. vm_compute. reflexivity. Qed.

Lemma sticker_types_plain : forallb plain_field sticker_types = true.
Proof. vm_compute. reflexivity. Qed.

Lemma header_plain : forallb plain_field header = true.
Proof. vm_compute. reflexivity. Qed.

(** A non-empty selection of plain entries joins into a plain field. *)
Lemma plain_join (l : list string) :
  l <> [] ->
  Forall (fun f => plain_field f = true) l ->
  plain_field (join ", " l) = true.
Proof.
  intros Hne H. destruct l as [|x l]; [congruence|].
  apply plain_field_intro.
  - apply nonempty_join. inversion H; subst.
    unfold plain_field in *. now apply andb_true_iff in H2.
  - apply all_chars_join; [reflexivity|].
    eapply Forall_impl; [|exact H]. intros f. apply plain_field_chars.
Qed.

Lemma incl_Forall_plain (l pool : list string) :
  incl l pool ->
  Forall (fun f => plain_field f = true) pool ->
  Forall (fun f => plain_field f = true) l.
Proof.
  intros Hi Hp. apply Forall_forall. intros x Hx.
  rewrite Forall_forall in Hp. apply Hp, Hi, Hx.
Qed.


(** ** Every generated row is made of plain fields and fits the patterns *)

Lemma selection_of_sample (pool : list string) k sa sb l (lo hi : nat) :
  NoDup pool ->
  Z.of_nat lo <= k <= Z.of_nat hi ->
  sample pool k sa = (Ok l, sb) ->
  selection lo hi pool l.
Proof.
  intros Hn Hk E.
  destruct (sample_selection _ _ _ _ _ Hn E) as (Hl & Hnd & Hi).
  unfold selection. repeat split; try assumption; lia.
Qed.

Lemma selection_incl lo hi (pool pool' l : list string) :
  incl pool pool' -> selection lo hi pool l -> selection lo hi pool' l.
Proof.
  intros Hp (Hl & Hn & Hi). repeat split; try assumption; try lia.
  intros x Hx. apply Hp, Hi, Hx.
Qed.

Lemma pool_incl h (base sub : list string) :
  incl sub shared_beers ->
  incl (list_of_set h (base ++ sub)) (base ++ shared_beers).
Proof.
  intros Hs x Hx. apply pool_In in Hx. apply in_or_app.
  destruct Hx as [Hx|Hx]; [now left|right; now apply Hs].
Qed.

Lemma valid_run_pattern h s p : valid_run h s p -> row_pattern (row_of p).
Proof.
  intros V.
  destruct V as [st sc adj nn tops bn taps cans eid sid ext k1 k2 k3
                   s1 s2 s3 Est Esc Hadj Hnn Hk1 Etops Hbn Hk2 Etaps
                   Hk3 Ecans Heid Hsid Hext].
  destruct (subsample_facts _ _ _ Est) as (_ & _ & _ & Hst).
  destruct (subsample_facts _ _ _ Esc) as (_ & _ & _ & Hsc).
  unfold row_of. cbn [adjective noun selected_toppings bun
    selected_tap_beers selected_can_beers event_id sticker_id sticker_type].
  do 5 eexists. split; [reflexivity|].
  split; [|split; [|split; [|split]]].
  - exists adj, nn, tops, bn.
    split; [exact Hadj|]. split; [exact Hnn|]. split; [|now split].
    eapply (selection_of_sample toppings k1);
      [exact toppings_NoDup | lia | exact Etops].
  - exists taps. split; [|reflexivity].
    eapply selection_incl; [apply pool_incl; exact Hst|].
    eapply (selection_of_sample _ k2);
      [apply list_of_set_NoDup | lia | exact Etaps].
  - exists cans. split; [|reflexivity].
    eapply selection_incl; [apply pool_incl; exact Hsc|].
    eapply (selection_of_sample _ k3);
      [apply list_of_set_NoDup | lia | exact Ecans].
  - exists eid. now split.
  - exists sid, ext. now repeat split.
Qed.

Lemma selection_plain lo hi (pool l : list string) :
  (1 <= lo)%nat ->
  Forall (fun f => plain_field f = true) pool ->
  selection lo hi pool l ->
  plain_field (join ", " l) = true.
Proof.
  intros Hlo Hp (Hl & _ & Hi). apply plain_join.
  - intros ->. simpl in Hl. lia.
  - eapply incl_Forall_plain; eauto.
Qed.

Lemma Forall_plain_of_forallb (l : list string) :
  forallb plain_field l = true -> Forall (fun f => plain_field f = true) l.
Proof. intros H. apply Forall_forall. now apply forallb_forall. Qed.

Lemma Forall_plain_app (a b : list string) :
  forallb plain_field a = true -> forallb plain_field b = true ->
  Forall (fun f => plain_field f = true) (a ++ b).
Proof.
  intros Ha Hb. apply Forall_app. split; now apply Forall_plain_of_forallb.
Qed.

Lemma burger_pattern_plain f : burger_pattern f -> plain_field f = true.
Proof.
  intros (adj & nn & tops & bn & Hadj & Hnn & Htops & Hbn & ->).
  apply (plain_vocabulary _ _ burger_adjectives_plain) in Hadj.
  apply (plain_vocabulary _ _ burger_nouns_plain) in Hnn.
  apply (plain_vocabulary _ _ buns_plain) in Hbn.
  apply (selection_plain 2 4 toppings) in Htops;
    [|lia|apply Forall_plain_of_forallb, toppings_plain].
  apply plain_field_chars in Hadj, Hnn, Hbn, Htops.
  apply plain_field_intro; [reflexivity|].
  unfold burger_text. rewrite !all_chars_app, Hadj, Hnn, Hbn, Htops.
  reflexivity.
Qed.

Lemma event_pattern_plain f : event_pattern f -> plain_field f = true.
Proof.
  intros (n & Hn & ->). apply plain_field_intro; [reflexivity|].
  unfold event_text. rewrite all_chars_app, str_int_plain by lia.
  reflexivity.
Qed.

Lemma sticker_pattern_plain f : sticker_pattern f -> plain_field f = true.
Proof.
  intros (n & ext & Hn & Hext & ->).
  apply (plain_vocabulary _ _ sticker_types_plain), plain_field_chars in Hext.
  apply plain_field_intro; [reflexivity|].
  unfold sticker_text. rewrite !all_chars_app, str_int_plain, Hext by lia.
  reflexivity.
Qed.

Lemma row_pattern_plain row :
  row_pattern row -> Forall (fun f => plain_field f = true) row.
Proof.
  intros (f1 & f2 & f3 & f4 & f5 & -> & H1 & (t & Ht & ->) & (c & Hc & ->)
          & H4 & H5).
  repeat constructor.
  - now apply burger_pattern_plain.
  - eapply selection_plain; [|apply Forall_plain_app|exact Ht];
      [lia|exact tap_only_beers_plain|exact shared_beers_plain].
  - eapply selection_plain; [|apply Forall_plain_app|exact Hc];
      [lia|exact can_only_beers_plain|exact shared_beers_plain].
  - now apply event_pattern_plain.
  - now apply sticker_pattern_plain.
Qed.

(** * The CSV file *)

(** ** Writing and reading back *)

Lemma quote_field_app f tail :
  quote_field f ++ tail = String dquote (escape f ++ String dquote tail).
Proof.
  unfold quote_field. cbn [append]. now rewrite append_assoc.
Qed.

Lemma escape_plain f : all_chars plain_char f = true -> escape f = f.
Proof.
  induction f as [|c f IH]; cbn [all_chars escape]; [reflexivity|].
  intros H. apply andb_true_iff in H. destruct H as [Hc Hf].
  now rewrite (plain_not_quote _ Hc), IH.
Qed.

Lemma csv_record_plain row :
  Forall (fun f => plain_field f = true) row ->
  csv_record row = quoted_record row.
Proof.
  intros H. unfold csv_record, quoted_record. f_equal.
  apply map_ext_in. intros f Hf. rewrite Forall_forall in H.
  unfold quote_field. now rewrite escape_plain by apply plain_field_chars, H, Hf.
Qed.

Lemma reader_quoted f :
  forall field row rest,
    reader InQuotedField field row (escape f ++ String dquote rest)
    = reader QuoteInQuotedField (field ++ f) row rest.
Proof.
  induction f as [|c f IH]; intros field row rest.
  - now rewrite append_nil_r.
  - cbn [escape]. destruct (Ascii.eqb c dquote) eqn:Ec.
    + apply Ascii.eqb_eq in Ec. subst c.
      cbn [append]. change (reader InQuotedField field row
        (String dquote (String dquote (escape f ++ String dquote rest))))
        with (reader InQuotedField (snoc field dquote) row
                (escape f ++ String dquote rest)).
      now rewrite IH, snoc_append.
    + cbn [append reader]. unfold reader_step. rewrite Ec.
      now rewrite IH, snoc_append.
Qed.

Lemma csv_record_cons f g fields :
  csv_record (f :: g :: fields)
  = quote_field f ++ String semicolon (csv_record (g :: fields)).
Proof. reflexivity. Qed.

Lemma reader_fields fields :
  forall row rest,
    fields <> [] ->
    reader StartField EmptyString row
      (csv_record fields ++ lineterminator ++ rest)
    = (row ++ fields)%list :: reader StartRecord EmptyString [] rest.
Proof.
  induction fields as [|f fields IH]; intros row rest Hne; [congruence|].
  destruct fields as [|g fields].
  - change (csv_record [f]) with (quote_field f).
    rewrite quote_field_app.
    change (reader StartField EmptyString row
              (String dquote (escape f ++ String dquote (lineterminator ++ rest))))
      with (reader InQuotedField EmptyString row
              (escape f ++ String dquote (lineterminator ++ rest))).
    rewrite reader_quoted. reflexivity.
  - rewrite csv_record_cons, append_assoc, quote_field_app.
    change (reader StartField EmptyString row
              (String dquote (escape f ++ String dquote
                 (String semicolon (csv_record (g :: fields))
                    ++ lineterminator ++ rest))))
      with (reader InQuotedField EmptyString row
              (escape f ++ String dquote
                 (String semicolon (csv_record (g :: fields))
                    ++ lineterminator ++ rest))).
    rewrite reader_quoted.
    change (reader QuoteInQuotedField (EmptyString ++ f) row
              (String semicolon (csv_record (g :: fields))
                 ++ lineterminator ++ rest))
      with (reader StartField EmptyString (push row f)
              (csv_record (g :: fields) ++ lineterminator ++ rest)).
    rewrite IH by discriminate. unfold push.
    now rewrite <- app_assoc.
Qed.

Lemma reader_line fields rest :
  reader StartRecord EmptyString [] (csv_line fields ++ rest)
  = fields :: reader StartRecord EmptyString [] rest.
Proof.
  unfold csv_line. rewrite append_assoc.
  destruct fields as [|f fields]; [reflexivity|].
  assert (R := reader_fields (f :: fields) [] rest).
  change ([] ++ f :: fields)%list with (f :: fields) in R.
  rewrite <- R by discriminate. clear R.
  destruct fields as [|g fields].
  - change (csv_record [f]) with (quote_field f).
    rewrite quote_field_app. reflexivity.
  - rewrite csv_record_cons, append_assoc, quote_field_app. reflexivity.
Qed.

(** Reading back a written text gives the records that were written,
    whatever their fields hold. *)
Lemma csv_reader_writer rows : csv_reader (csv_text rows) = rows.
Proof.
  unfold csv_reader. induction rows as [|row rows IH]; [reflexivity|].
  cbn [csv_text fold_right]. fold (csv_text rows).
  now rewrite reader_line, IH.
Qed.

(** ** Lines *)

Lemma split_lines_line l :
  forall cur rest,
    all_chars no_newline l = true ->
    split_lines cur (l ++ lineterminator ++ rest)
    = (cur ++ l) :: split_lines EmptyString rest.
Proof.
  induction l as [|c l IH]; intros cur rest H.
  - rewrite append_nil_r. reflexivity.
  - cbn [all_chars] in H. apply andb_true_iff in H. destruct H as [Hc Hl].
    unfold no_newline in Hc. apply negb_true_iff, orb_false_iff in Hc.
    destruct Hc as [HLF HCR].
    cbn [append split_lines]. rewrite HLF, HCR.
    now rewrite IH, snoc_append.
Qed.

Lemma quote_field_no_newline f :
  all_chars no_newline f = true -> all_chars no_newline (quote_field f) = true.
Proof.
  intros H. unfold quote_field. cbn [all_chars].
  rewrite all_chars_app. cbn [all_chars].
  assert (E : all_chars no_newline (escape f) = true).
  { induction f as [|c f IH]; [reflexivity|].
    cbn [all_chars] in H. apply andb_true_iff in H. destruct H as [Hc Hf].
    cbn [escape]. destruct (Ascii.eqb c dquote); cbn [all_chars];
      rewrite IH by exact Hf; [reflexivity|now rewrite Hc]. }
  now rewrite E.
Qed.

Lemma csv_record_no_newline row :
  Forall (fun f => plain_field f = true) row ->
  all_chars no_newline (csv_record row) = true.
Proof.
  intros H. unfold csv_record. apply all_chars_join; [reflexivity|].
  apply Forall_map. eapply Forall_impl; [|exact H].
  intros f Hf. apply quote_field_no_newline.
  eapply all_chars_impl; [exact plain_no_newline|].
  now apply plain_field_chars.
Qed.

Lemma lines_csv_line row :
  Forall (fun f => plain_field f = true) row ->
  lines (csv_line row) = [csv_record row].
Proof.
  intros H. unfold lines, csv_line.
  rewrite <- (append_nil_r lineterminator).
  now rewrite split_lines_line by now apply csv_record_no_newline.
Qed.

Lemma lines_csv_text rows :
  Forall (Forall (fun f => plain_field f = true)) rows ->
  lines (csv_text rows) = map csv_record rows.
Proof.
  unfold lines. induction 1 as [|row rows Hrow Hrows IH]; [reflexivity|].
  cbn [csv_text fold_right map]. fold (csv_text rows).
  unfold csv_line. rewrite append_assoc.
  rewrite split_lines_line by now apply csv_record_no_newline.
  now rewrite IH.
Qed.

(** ** The rows of a run *)

Lemma generated_rows_spec h n :
  forall s, exists rows s',
    generated_rows h n s = (rows, s')
    /\ List.length rows = n
    /\ Forall row_pattern rows.
Proof.
  induction n as [|n IH]; intros s.
  - exists [], s. repeat split. constructor.
  - destruct (generate_run h s) as (p & j & E & V & _).
    destruct (IH (skip j s)) as (rows & s' & R & Hlen & Hrows).
    exists (row_of p :: rows), s'. cbn [generated_rows]. rewrite E, R.
    split; [reflexivity|]. split; [cbn [List.length]; now rewrite Hlen|].
    constructor; [|exact Hrows]. eapply valid_run_pattern; eauto.
Qed.

Lemma generated_rows_step h n s row s1 rows s2 :
  generate_random_data h s = (Ok row, s1) ->
  generated_rows h n s1 = (rows, s2) ->
  generated_rows h (S n) s = (row :: rows, s2).
Proof. intros E R. cbn [generated_rows]. now rewrite E, R. Qed.

(** ** The effects of [create_csv_file] *)

Lemma files_set_file_same path content w :
  files (set_file path content w) path = Some content.
Proof. unfold set_file. cbn [files]. now rewrite String.eqb_refl. Qed.

Lemma files_set_file_other path content w p :
  String.eqb p path = false -> files (set_file path content w) p = files w p.
Proof. intros E. unfold set_file. cbn [files]. now rewrite E. Qed.

Lemma writerow_run path row w c :
  files w path = Some c ->
  writerow path row w = (Ok tt, set_file path (c ++ csv_line row) w).
Proof.
  intros Hc. unfold writerow, write, file_content. now rewrite Hc.
Qed.

Lemma lift_rand_run {A} (m : Rand A) w a s' :
  m (rand w) = (Ok a, s') ->
  lift_rand m w = (Ok a, mkWorld s' (files w) (stdout w)).
Proof. intros E. unfold lift_rand. now rewrite E. Qed.

Lemma write_rows_run h n :
  forall w rows s' c,
    generated_rows h n (rand w) = (rows, s') ->
    files w csv_path = Some c ->
    exists w',
      write_rows h n w = (Ok tt, w')
      /\ rand w' = s'
      /\ stdout w' = stdout w
      /\ files w' csv_path = Some (c ++ csv_text rows)
      /\ (forall p, String.eqb p csv_path = false -> files w' p = files w p).
Proof.
  induction n as [|n IH]; intros w rows s' c R Hc.
  - cbn [generated_rows] in R. inversion R; subst.
    exists w. cbn [write_rows csv_text fold_right]. rewrite append_nil_r.
    repeat split; auto.
  - destruct (generate_run h (rand w)) as (p & j & E & _).
    destruct (generated_rows_spec h n (skip j (rand w)))
      as (rows1 & s1 & R1 & _).
    rewrite (generated_rows_step _ _ _ _ _ _ _ E R1) in R.
    inversion R; subst rows s'. clear R.
    set (w1 := mkWorld (skip j (rand w)) (files w) (stdout w)).
    set (w2 := set_file csv_path (c ++ csv_line (row_of p)) w1).
    destruct (IH w2 rows1 s1 (c ++ csv_line (row_of p)))
      as (w' & W & Hr & Ho & Hf & Hp).
    { exact R1. }
    { apply files_set_file_same. }
    exists w'. split.
    + cbn [write_rows].
      rewrite (bind_ok _ _ _ _ _ (lift_rand_run _ _ _ _ E)). fold w1.
      assert (E2 : writerow csv_path (row_of p) w1 = (Ok tt, w2))
        by (apply writerow_run; exact Hc).
      rewrite (bind_ok _ _ _ _ _ E2). exact W.
    + split; [exact Hr|]. split; [exact Ho|]. split.
      * rewrite Hf. cbn [csv_text fold_right]. now rewrite append_assoc.
      * intros q Hq. rewrite (Hp q Hq). unfold w2.
        rewrite files_set_file_other by exact Hq. reflexivity.
Qed.

Lemma create_csv_file_run h n w :
  exists w' rows,
    create_csv_file h (Some n) w = (Ok tt, w')
    /\ rows = fst (generated_rows h (Z.to_nat n) (rand w))
    /\ List.length rows = Z.to_nat n
    /\ Forall row_pattern rows
    /\ stdout w' = (stdout w ++ [success_message n])%list
    /\ files w' csv_path = Some (csv_text (header :: rows))
    /\ (forall p, String.eqb p csv_path = false -> files w' p = files w p).
Proof.
  destruct (generated_rows_spec h (Z.to_nat n) (rand w))
    as (rows & s' & R & Hlen & Hrows).
  set (w1 := set_file csv_path EmptyString w).
  set (w2 := set_file csv_path (EmptyString ++ csv_line header) w1).
  assert (E1 : open_w csv_path w = (Ok tt, w1)) by reflexivity.
  assert (E2 : writerow csv_path header w1 = (Ok tt, w2)).
  { apply writerow_run. apply files_set_file_same. }
  destruct (write_rows_run h (Z.to_nat n) w2 rows s'
              (EmptyString ++ csv_line header))
    as (w3 & W & Hr & Ho & Hf & Hp).
  { exact R. }
  { apply files_set_file_same. }
  exists (mkWorld (rand w3) (files w3)
            (stdout w3 ++ [success_message n])%list), rows.
  split.
  - unfold create_csv_file.
    rewrite (bind_ok _ _ _ _ _ E1), (bind_ok _ _ _ _ _ E2),
      (bind_ok _ _ _ _ _ W).
    reflexivity.
  - split; [now rewrite R|]. split; [exact Hlen|]. split; [exact Hrows|].
    cbn [stdout files]. split; [now rewrite Ho|]. split; [exact Hf|].
    intros q Hq. rewrite (Hp q Hq). unfold w2, w1.
    now rewrite !files_set_file_other by exact Hq.
Qed.

Lemma rows_plain rows :
  Forall row_pattern rows ->
  Forall (Forall (fun f => plain_field f = true)) (header :: rows).
Proof.
  intros H. constructor.
  - apply Forall_plain_of_forallb, header_plain.
  - eapply Forall_impl; [|exact H]. apply row_pattern_plain.
Qed.

Lemma map_csv_record_plain rows :
  Forall (Forall (fun f => plain_field f = true)) rows ->
  map csv_record rows = map quoted_record rows.
Proof.
  intros H. apply map_ext_in. intros row Hrow.
  rewrite Forall_forall in H. now apply csv_record_plain, H.
Qed.

(** C1. For every row count [0 <= num_rows], [create_csv_file(num_rows)]
    leaves in "dummy_historical_data.csv" the header record followed by
    the [num_rows] rows generated one after the other: [num_rows + 1]
    lines, each the fields of its record between double quotes and
    separated by ";".  The header is the five column names, in order.
    Called without argument, the row count is 500. *)
Theorem create_csv_file_writes (h : string -> Z) (num_rows : Z) (w : world) :
  0 <= num_rows ->
  exists w' rows,
    create_csv_file h (Some num_rows) w = (Ok tt, w')
    /\ rows = fst (generated_rows h (Z.to_nat num_rows) (rand w))
    /\ len rows = num_rows
    /\ files w' "dummy_historical_data.csv"
       = Some (csv_text (header :: rows))
    /\ lines (csv_text (header :: rows))
       = map quoted_record (header :: rows)
    /\ len (lines (csv_text (header :: rows))) = num_rows + 1
    /\ header = ["Historical Burger"; "Historical Tap Beers";
                 "Historical Can Beers"; "Historical Facebook Event";
                 "Historical Sticker"]
    /\ create_csv_file h None w = create_csv_file h (Some 500) w.
Proof.
  intros Hn.
  destruct (create_csv_file_run h num_rows w)
    as (w' & rows & E & Hrows & Hlen & Hpat & _ & Hf & _).
  pose proof (rows_plain rows Hpat) as Hplain.
  pose proof (lines_csv_text _ Hplain) as Hlines.
  exists w', rows.
  split; [exact E|]. split; [exact Hrows|].
  split; [unfold len; lia|]. split; [exact Hf|].
  split; [now rewrite Hlines, map_csv_record_plain|].
  split.
  - rewrite Hlines. unfold len. rewrite length_map.
    cbn [List.length]. lia.
  - split; reflexivity.
Qed.

Lemma create_csv_file_writes_witness :
  0 <= 2
  /\ exists w' rows,
       create_csv_file hash_by_length (Some 2) world0 = (Ok tt, w')
       /\ rows = fst (generated_rows hash_by_length (Z.to_nat 2) (rand world0))
       /\ len rows = 2
       /\ files w' "dummy_historical_data.csv"
          = Some (csv_text (header :: rows))
       /\ lines (csv_text (header :: rows))
          = map quoted_record (header :: rows)
       /\ len (lines (csv_text (header :: rows))) = 2 + 1
       /\ header = ["Historical Burger"; "Historical Tap Beers";
                    "Historical Can Beers"; "Historical Facebook Event";
                    "Historical Sticker"]
       /\ create_csv_file hash_by_length None world0
          = create_csv_file hash_by_length (Some 500) world0.
Proof.
  split; [lia|].
  apply (create_csv_file_writes hash_by_length 2 world0). lia.
Defined.

(** C7. With row count 10 the file has 11 lines; read back with
    delimiter ";" it gives the header and then exactly the 10 generated
    rows, and every one of them fits the five field patterns. *)
Theorem create_csv_file_round_trip (h : string -> Z) (w : world) :
  exists w' text rows,
    create_csv_file h (Some 10) w = (Ok tt, w')
    /\ files w' csv_path = Some text
    /\ List.length (lines text) = 11%nat
    /\ csv_reader text = header :: rows
    /\ rows = fst (generated_rows h 10 (rand w))
    /\ List.length rows = 10%nat
    /\ Forall row_pattern rows.
Proof.
  destruct (create_csv_file_run h 10 w)
    as (w' & rows & E & Hrows & Hlen & Hpat & _ & Hf & _).
  exists w', (csv_text (header :: rows)), rows.
  split; [exact E|]. split; [exact Hf|]. split.
  - rewrite (lines_csv_text _ (rows_plain rows Hpat)), length_map.
    cbn [List.length]. now rewrite Hlen.
  - split; [apply csv_reader_writer|]. split; [exact Hrows|].
    split; [exact Hlen|exact Hpat].
Qed.

(** C10. Every field of every generated row is a plain field: not
    empty, and without ";", double quote, line feed or carriage return.
    So the record of a row, like that of the header, is one line of the
    file, and the file of [n] rows has [n + 1] lines. *)
Theorem generated_fields_plain :
  (forall (h : string -> Z) (s : rng),
      exists row s',
        generate_random_data h s = (Ok row, s')
        /\ Forall (fun f => plain_field f = true) row
        /\ lines (csv_line row) = [csv_record row])
  /\ Forall (fun f => plain_field f = true) header
  /\ lines (csv_line header) = [csv_record header]
  /\ (forall (h : string -> Z) (n : nat) (w : world),
         exists w' text,
           create_csv_file h (Some (Z.of_nat n)) w = (Ok tt, w')
           /\ files w' csv_path = Some text
           /\ List.length (lines text) = S n).
Proof.
  split.
  { intros h s. destruct (generate_run h s) as (p & j & E & V & _).
    pose proof (row_pattern_plain _ (valid_run_pattern _ _ _ V)) as Hp.
    exists (row_of p), (skip j s).
    split; [exact E|]. split; [exact Hp|]. now apply lines_csv_line. }
  split; [apply Forall_plain_of_forallb, header_plain|].
  split; [apply lines_csv_line, Forall_plain_of_forallb, header_plain|].
  intros h n w.
  destruct (create_csv_file_run h (Z.of_nat n) w)
    as (w' & rows & E & _ & Hlen & Hpat & _ & Hf & _).
  exists w', (csv_text (header :: rows)).
  split; [exact E|]. split; [exact Hf|].
  rewrite (lines_csv_text _ (rows_plain rows Hpat)), length_map.
  cbn [List.length]. rewrite Hlen. now rewrite Nat2Z.id.
Qed.

(** * Further properties of the generator *)

(** ** Every step of a call *)

Lemma generate_trace h s :
  exists p j,
    generate_random_data h s = (Ok (row_of p), skip j s)
    /\ run_steps h s p j.
Proof.
  destruct (sample_spec shared_beers (Z.min (len shared_beers) 15) s)
    as (st & E1 & _);
    [rewrite subsample_size_15; vm_compute; intuition discriminate|].
  change (Z.to_nat (Z.min (len shared_beers) 15)) with 15%nat in E1.
  destruct (sample_spec shared_beers (Z.min (len shared_beers) 15) (skip 15 s))
    as (sc & E2 & _);
    [rewrite subsample_size_15; vm_compute; intuition discriminate|].
  change (Z.to_nat (Z.min (len shared_beers) 15)) with 15%nat in E2.
  rewrite skip_skip in E2. simpl Nat.add in E2.
  destruct (choice_spec burger_adjectives (skip 30 s))
    as (adj & E3 & _); [discriminate|].
  rewrite skip_skip in E3. simpl Nat.add in E3.
  destruct (choice_spec burger_nouns (skip 31 s))
    as (nn & E4 & _); [discriminate|].
  rewrite skip_skip in E4. simpl Nat.add in E4.
  destruct (randint_spec 2 4 (skip 32 s)) as (k1 & E5 & H5); [lia|].
  rewrite skip_skip in E5. simpl Nat.add in E5.
  destruct (sample_spec toppings k1 (skip 33 s)) as (tops & E6 & _).
  { change (len toppings) with 32. lia. }
  rewrite skip_skip in E6.
  set (n1 := (33 + Z.to_nat k1)%nat) in *.
  destruct (choice_spec buns (skip n1 s)) as (bn & E7 & _); [discriminate|].
  rewrite skip_skip in E7.
  destruct (randint_spec 1 4 (skip (n1 + 1) s)) as (k2 & E8 & H8); [lia|].
  rewrite skip_skip in E8.
  destruct (sample_spec (tap_pool h st) k2 (skip (n1 + 1 + 1) s))
    as (taps & E9 & _).
  { pose proof (tap_pool_size h st). lia. }
  rewrite skip_skip in E9.
  set (n2 := (n1 + 1 + 1 + Z.to_nat k2)%nat) in *.
  destruct (randint_spec 4 6 (skip n2 s)) as (k3 & E10 & H10); [lia|].
  rewrite skip_skip in E10.
  destruct (sample_spec (can_pool h sc) k3 (skip (n2 + 1) s))
    as (cans & E11 & _).
  { pose proof (can_pool_size h sc). lia. }
  rewrite skip_skip in E11.
  set (n3 := (n2 + 1 + Z.to_nat k3)%nat) in *.
  destruct (randint_spec 1000000 9999999 (skip n3 s))
    as (eid & E12 & _); [lia|].
  rewrite skip_skip in E12.
  destruct (randint_spec 100 999 (skip (n3 + 1) s))
    as (sid & E13 & _); [lia|].
  rewrite skip_skip in E13.
  destruct (choice_spec sticker_types (skip (n3 + 1 + 1) s))
    as (ext & E14 & _); [discriminate|].
  rewrite skip_skip in E14.
  exists (mkPicks st sc adj nn tops bn taps cans eid sid ext),
    (n3 + 1 + 1 + 1)%nat.
  split.
  - unfold generate_random_data.
    run_step E1. run_step E2. run_step E3. run_step E4. run_step E5.
    run_step E6. run_step E7. run_step E8. run_step E9. run_step E10.
    run_step E11. run_step E12. run_step E13. run_step E14.
    reflexivity.
  - exact (run_steps_intro h s st sc adj nn tops bn taps cans eid sid ext
             k1 k2 k3 E1 E2 E3 E4 E5 E6 E7 E8 E9 E10 E11 E12 E13 E14).
Qed.

Lemma run_result {A} (m : Rand A) s a b s1 s2 :
  m s = (Ok a, s1) -> m s = (Ok b, s2) -> a = b.
Proof. intros E1 E2. rewrite E1 in E2. now inversion E2. Qed.

(** X5. The string hash decides nothing but the beers: from the same
    random source, the calls under two hashes return the same burger
    description, event URL and sticker name, and leave the same random
    source. *)
Theorem hash_touches_beer_fields_only (h1 h2 : string -> Z) (s : rng) :
  exists row1 row2 s',
    generate_random_data h1 s = (Ok row1, s')
    /\ generate_random_data h2 s = (Ok row2, s')
    /\ nth_error row1 0 = nth_error row2 0
    /\ nth_error row1 3 = nth_error row2 3
    /\ nth_error row1 4 = nth_error row2 4
    /\ List.length row1 = 5%nat
    /\ List.length row2 = 5%nat.
Proof.
  destruct (generate_trace h1 s) as (p1 & j1 & G1 & T1).
  destruct (generate_trace h2 s) as (p2 & j2 & G2 & T2).
  destruct T1 as [st sc adj nn tops bn taps cans eid sid ext k1 k2 k3
                    n1 n2 n3 A1 A2 A3 A4 A5 A6 A7 A8 A9 A10 A11 A12 A13 A14].
  destruct T2 as [st' sc' adj' nn' tops' bn' taps' cans' eid' sid' ext'
                    k1' k2' k3' m1 m2 m3
                    B1 B2 B3 B4 B5 B6 B7 B8 B9 B10 B11 B12 B13 B14].
  pose proof (run_result _ _ _ _ _ _ A3 B3) as Eadj.
  pose proof (run_result _ _ _ _ _ _ A4 B4) as Enn.
  pose proof (run_result _ _ _ _ _ _ A5 B5) as Ek1.
  subst adj' nn' k1'.
  pose proof (run_result _ _ _ _ _ _ A6 B6) as Etops.
  assert (Em1 : m1 = n1) by reflexivity. subst tops'. clearbody n1 m1. subst m1.
  pose proof (run_result _ _ _ _ _ _ A7 B7) as Ebn.
  pose proof (run_result _ _ _ _ _ _ A8 B8) as Ek2.
  subst bn' k2'.
  assert (Em2 : m2 = n2) by reflexivity. clearbody n2 m2. subst m2.
  pose proof (run_result _ _ _ _ _ _ A10 B10) as Ek3. subst k3'.
  assert (Em3 : m3 = n3) by reflexivity. clearbody n3 m3. subst m3.
  pose proof (run_result _ _ _ _ _ _ A12 B12) as Eeid.
  pose proof (run_result _ _ _ _ _ _ A13 B13) as Esid.
  pose proof (run_result _ _ _ _ _ _ A14 B14) as Eext.
  subst eid' sid' ext'.
  exists (row_of (mkPicks st sc adj nn tops bn taps cans eid sid ext)),
    (row_of (mkPicks st' sc' adj nn tops bn taps' cans' eid sid ext)),
    (skip (n3 + 1 + 1 + 1) s).
  split; [exact G1|]. split; [exact G2|]. repeat split.
Qed.

(** ** The three beer lists share nothing *)

Lemma mem_In x l : mem x l = true <-> In x l.
Proof.
  unfold mem. rewrite existsb_exists. split.
  - intros (y & Hy & E). apply String.eqb_eq in E. now subst.
  - intros H. exists x. split; [exact H|apply String.eqb_refl].
Qed.

Lemma disjointb_spec a b x :
  disjointb a b = true -> In x a -> ~ In x b.
Proof.
  unfold disjointb. intros H Ha Hb.
  rewrite forallb_forall in H. specialize (H x Ha).
  apply mem_In in Hb. rewrite Hb in H. discriminate.
Qed.

Lemma tap_only_not_shared : disjointb tap_only_beers shared_beers = true.
Proof. vm_compute. reflexivity. Qed.

Lemma can_only_not_shared : disjointb can_only_beers shared_beers = true.
Proof. vm_compute. reflexivity. Qed.

Lemma tap_only_not_can_only : disjointb tap_only_beers can_only_beers = true.
Proof. vm_compute. reflexivity. Qed.

Lemma pool_exact h (base sub : list string) :
  NoDup base -> NoDup sub ->
  disjointb base shared_beers = true -> incl sub shared_beers ->
  Permutation (list_of_set h (base ++ sub)) (base ++ sub).
Proof.
  intros Hb Hs Hd Hi.
  rewrite list_of_set_perm, nodup_fixed_point; [reflexivity|].
  apply NoDup_app; [exact Hb|exact Hs|].
  intros x Hx Hx'. eapply disjointb_spec; eauto.
Qed.

(** X7. The set that makes a pool never drops a beer: the subsample is
    disjoint from the tap-only and from the can-only list, so the tap pool
    is a rearrangement of the 48 tap-only beers and the 15 sampled ones,
    63 beers in every call, and the can pool one of 49 and 15, 64 beers. *)
Theorem pools_keep_every_beer (h : string -> Z) (s : rng) :
  exists row s' sub_t sub_c,
    generate_random_data h s = (Ok row, s')
    /\ sample shared_beers (Z.min (len shared_beers) 15) s
       = (Ok sub_t, skip 15 s)
    /\ sample shared_beers (Z.min (len shared_beers) 15) (skip 15 s)
       = (Ok sub_c, skip 30 s)
    /\ Permutation (list_of_set h (tap_only_beers ++ sub_t))
         (tap_only_beers ++ sub_t)
    /\ Permutation (list_of_set h (can_only_beers ++ sub_c))
         (can_only_beers ++ sub_c)
    /\ len (list_of_set h (tap_only_beers ++ sub_t)) = 63
    /\ len (list_of_set h (can_only_beers ++ sub_c)) = 64.
Proof.
  destruct (generate_run h s) as (p & j & E & V & _).
  destruct V as [st sc adj nn tops bn taps cans eid sid ext k1 k2 k3
                   s1 s2 s3 Est Esc _ _ _ _ _ _ _ _ _ _ _ _].
  destruct (subsample_facts _ _ _ Est) as (_ & Lt & Nt & It).
  destruct (subsample_facts _ _ _ Esc) as (_ & Lc & Nc & Ic).
  pose proof (pool_exact h _ _ tap_only_beers_NoDup Nt tap_only_not_shared It)
    as Pt.
  pose proof (pool_exact h _ _ can_only_beers_NoDup Nc can_only_not_shared Ic)
    as Pc.
  exists (row_of (mkPicks st sc adj nn tops bn taps cans eid sid ext)),
    (skip j s), st, sc.
  split; [exact E|]. split; [exact Est|]. split; [exact Esc|].
  split; [exact Pt|]. split; [exact Pc|].
  unfold len in *. split.
  - rewrite (Permutation_length Pt), length_app.
    change (List.length tap_only_beers) with 48%nat. lia.
  - rewrite (Permutation_length Pc), length_app.
    change (List.length can_only_beers) with 49%nat. lia.
Qed.

(** X8. The beers of the tap field are tap-only or shared beers and those
    of the can field can-only or shared beers, so a can-only beer is never
    on tap and a tap-only beer never in a can. *)
Theorem exclusive_beers_stay_apart (h : string -> Z) (s : rng) :
  exists row s' taps cans,
    generate_random_data h s = (Ok row, s')
    /\ nth_error row 1 = Some (join ", " taps)
    /\ nth_error row 2 = Some (join ", " cans)
    /\ (forall x, In x taps -> In x tap_only_beers \/ In x shared_beers)
    /\ (forall x, In x cans -> In x can_only_beers \/ In x shared_beers)
    /\ (forall x, In x taps -> ~ In x can_only_beers)
    /\ (forall x, In x cans -> ~ In x tap_only_beers).
Proof.
  destruct (generate_run h s) as (p & j & E & V & _).
  destruct V as [st sc adj nn tops bn taps cans eid sid ext k1 k2 k3
                   s1 s2 s3 Est Esc _ _ _ _ _ _ Etaps _ Ecans _ _ _].
  destruct (subsample_facts _ _ _ Est) as (_ & _ & _ & It).
  destruct (subsample_facts _ _ _ Esc) as (_ & _ & _ & Ic).
  assert (Ht : forall x, In x taps -> In x tap_only_beers \/ In x shared_beers).
  { intros x Hx.
    apply (sample_of_incl _ _ _ (proj1 (proj2 (sample_ok _ _ _ _ _ Etaps)))) in Hx.
    apply pool_In in Hx. destruct Hx as [Hx|Hx]; [now left|right; now apply It]. }
  assert (Hc : forall x, In x cans -> In x can_only_beers \/ In x shared_beers).
  { intros x Hx.
    apply (sample_of_incl _ _ _ (proj1 (proj2 (sample_ok _ _ _ _ _ Ecans)))) in Hx.
    apply pool_In in Hx. destruct Hx as [Hx|Hx]; [now left|right; now apply Ic]. }
  exists (row_of (mkPicks st sc adj nn tops bn taps cans eid sid ext)),
    (skip j s), taps, cans.
  split; [exact E|]. split; [reflexivity|]. split; [reflexivity|].
  split; [exact Ht|]. split; [exact Hc|]. split.
  - intros x Hx Hcan. destruct (Ht x Hx) as [H|H].
    + exact (disjointb_spec _ _ _ tap_only_not_can_only H Hcan).
    + exact (disjointb_spec _ _ _ can_only_not_shared Hcan H).
  - intros x Hx Htap. destruct (Hc x Hx) as [H|H].
    + exact (disjointb_spec _ _ _ tap_only_not_can_only Htap H).
    + exact (disjointb_spec _ _ _ tap_only_not_shared Htap H).
Qed.

(** ** Joined fields can be read in one way only *)

Lemma comma_free_app a b :
  comma_free (a ++ b) = comma_free a && comma_free b.
Proof. apply all_chars_app. Qed.

Lemma comma_free_no_comma a b y :
  comma_free a = true -> a <> b ++ String ","%char y.
Proof.
  intros Ha E. rewrite E, comma_free_app in Ha.
  apply andb_true_iff in Ha. destruct Ha as [_ Ha]. discriminate Ha.
Qed.

Lemma app_comma_inj a :
  forall b x y,
    comma_free a = true -> comma_free b = true ->
    a ++ String ","%char x = b ++ String ","%char y ->
    a = b /\ x = y.
Proof.
  induction a as [|c a IH]; intros [|d b] x y Ha Hb E; cbn [append] in E.
  - inversion E. auto.
  - inversion E; subst. cbn in Hb. discriminate Hb.
  - inversion E; subst. cbn in Ha. discriminate Ha.
  - inversion E; subst.
    cbn [comma_free all_chars] in Ha, Hb.
    apply andb_true_iff in Ha, Hb.
    destruct (IH b x y) as [-> ->]; [apply Ha|apply Hb|assumption|auto].
Qed.

Lemma join_cons2 x y l :
  join ", " (x :: y :: l)
  = x ++ String ","%char (String " "%char (join ", " (y :: l))).
Proof. reflexivity. Qed.

Lemma entry_comma_free x : entry x = true -> comma_free x = true.
Proof. unfold entry. intros H. now apply andb_true_iff in H. Qed.

Lemma entry_nonempty x : entry x = true -> nonempty x = true.
Proof. unfold entry. intros H. now apply andb_true_iff in H. Qed.

Lemma join_nonempty x l : entry x = true -> join ", " (x :: l) <> EmptyString.
Proof.
  intros Hx E. pose proof (nonempty_join ", " x l (entry_nonempty _ Hx)) as N.
  rewrite E in N. discriminate N.
Qed.

Lemma join_inj l1 :
  forall l2,
    forallb entry l1 = true -> forallb entry l2 = true ->
    join ", " l1 = join ", " l2 -> l1 = l2.
Proof.
  induction l1 as [|a r1 IH]; intros [|b r2] H1 H2 E.
  - reflexivity.
  - cbn [forallb] in H2. apply andb_true_iff in H2.
    symmetry in E. now apply join_nonempty in E.
  - cbn [forallb] in H1. apply andb_true_iff in H1.
    now apply join_nonempty in E.
  - cbn [forallb] in H1, H2. apply andb_true_iff in H1, H2.
    destruct H1 as [Ha Hr1], H2 as [Hb Hr2].
    pose proof (entry_comma_free _ Ha) as Ca.
    pose proof (entry_comma_free _ Hb) as Cb.
    destruct r1 as [|a' r1], r2 as [|b' r2].
    + change (a = b) in E. now subst.
    + rewrite join_cons2 in E. change (join ", " [a]) with a in E.
      now apply comma_free_no_comma in E.
    + rewrite join_cons2 in E. change (join ", " [b]) with b in E.
      symmetry in E. now apply comma_free_no_comma in E.
    + rewrite !join_cons2 in E.
      apply app_comma_inj in E; [|exact Ca|exact Cb].
      destruct E as [-> E]. inversion E as [E'].
      f_equal. now apply IH.
Qed.

Lemma beers_are_entries :
  forallb entry (tap_only_beers ++ can_only_beers ++ shared_beers) = true.
Proof. vm_compute. reflexivity. Qed.

Lemma selected_beers_entries (sel base : list string) :
  (forall x, In x sel -> In x base \/ In x shared_beers) ->
  incl base (tap_only_beers ++ can_only_beers ++ shared_beers) ->
  forallb entry sel = true.
Proof.
  intros Hs Hb. apply forallb_forall. intros x Hx.
  pose proof beers_are_entries as B. rewrite forallb_forall in B. apply B.
  destruct (Hs x Hx) as [H|H]; [now apply Hb|].
  apply in_or_app. right. apply in_or_app. now right.
Qed.

(** X6. No beer name holds a comma, so the tap and the can field can be
    read back in one way only: a list of non-empty, comma-free names that
    joins with ", " into the field is the list of beers the call
    selected. *)
Theorem beer_fields_unambiguous (h : string -> Z) (s : rng) :
  exists row s' taps cans,
    generate_random_data h s = (Ok row, s')
    /\ nth_error row 1 = Some (join ", " taps)
    /\ nth_error row 2 = Some (join ", " cans)
    /\ forallb entry taps = true
    /\ forallb entry cans = true
    /\ (forall l, forallb entry l = true ->
                  join ", " l = join ", " taps -> l = taps)
    /\ (forall l, forallb entry l = true ->
                  join ", " l = join ", " cans -> l = cans).
Proof.
  destruct (generate_run h s) as (p & j & E & V & _).
  destruct V as [st sc adj nn tops bn taps cans eid sid ext k1 k2 k3
                   s1 s2 s3 Est Esc _ _ _ _ _ _ Etaps _ Ecans _ _ _].
  destruct (subsample_facts _ _ _ Est) as (_ & _ & _ & It).
  destruct (subsample_facts _ _ _ Esc) as (_ & _ & _ & Ic).
  assert (Ht : forallb entry taps = true).
  { apply (selected_beers_entries taps tap_only_beers).
    - intros x Hx.
      apply (sample_of_incl _ _ _ (proj1 (proj2 (sample_ok _ _ _ _ _ Etaps))))
        in Hx.
      apply pool_In in Hx. destruct Hx as [Hx|Hx]; [now left|right; now apply It].
    - intros x Hx. apply in_or_app. now left. }
  assert (Hc : forallb entry cans = true).
  { apply (selected_beers_entries cans can_only_beers).
    - intros x Hx.
      apply (sample_of_incl _ _ _ (proj1 (proj2 (sample_ok _ _ _ _ _ Ecans))))
        in Hx.
      apply pool_In in Hx. destruct Hx as [Hx|Hx]; [now left|right; now apply Ic].
    - intros x Hx. apply in_or_app. right. apply in_or_app. now left. }
  exists (row_of (mkPicks st sc adj nn tops bn taps cans eid sid ext)),
    (skip j s), taps, cans.
  split; [exact E|]. split; [reflexivity|]. split; [reflexivity|].
  split; [exact Ht|]. split; [exact Hc|]. split.
  - intros l Hl J. now apply join_inj.
  - intros l Hl J. now apply join_inj.
Qed.

(** * Further properties of the file writer *)

Lemma create_csv_file_effects h n w :
  exists w' rows,
    create_csv_file h (Some n) w = (Ok tt, w')
    /\ generated_rows h (Z.to_nat n) (rand w) = (rows, rand w')
    /\ List.length rows = Z.to_nat n
    /\ Forall row_pattern rows
    /\ stdout w' = (stdout w ++ [success_message n])%list
    /\ files w' csv_path = Some (csv_text (header :: rows))
    /\ (forall p, String.eqb p csv_path = false -> files w' p = files w p).
Proof.
  destruct (generated_rows_spec h (Z.to_nat n) (rand w))
    as (rows & s' & R & Hlen & Hrows).
  set (w1 := set_file csv_path EmptyString w).
  set (w2 := set_file csv_path (EmptyString ++ csv_line header) w1).
  assert (E1 : open_w csv_path w = (Ok tt, w1)) by reflexivity.
  assert (E2 : writerow csv_path header w1 = (Ok tt, w2)).
  { apply writerow_run. apply files_set_file_same. }
  destruct (write_rows_run h (Z.to_nat n) w2 rows s'
              (EmptyString ++ csv_line header))
    as (w3 & W & Hr & Ho & Hf & Hp).
  { exact R. }
  { apply files_set_file_same. }
  exists (mkWorld (rand w3) (files w3)
            (stdout w3 ++ [success_message n])%list), rows.
  split.
  - unfold create_csv_file.
    rewrite (bind_ok _ _ _ _ _ E1), (bind_ok _ _ _ _ _ E2),
      (bind_ok _ _ _ _ _ W).
    reflexivity.
  - cbn [rand stdout files]. split; [now rewrite Hr|].
    split; [exact Hlen|]. split; [exact Hrows|].
    split; [now rewrite Ho|]. split; [exact Hf|].
    intros q Hq. rewrite (Hp q Hq). unfold w2, w1.
    now rewrite !files_set_file_other by exact Hq.
Qed.

(** X1. A row count of zero or less writes no row: the file holds the
    header line alone and the random source is left untouched; the
    message still reports the count as it was given. *)
Theorem create_csv_file_without_rows (h : string -> Z) (num_rows : Z)
  (w : world) :
  num_rows <= 0 ->
  exists w',
    create_csv_file h (Some num_rows) w = (Ok tt, w')
    /\ files w' csv_path = Some (csv_line header)
    /\ lines (csv_line header) = [quoted_record header]
    /\ rand w' = rand w
    /\ stdout w'
       = (stdout w
            ++ [("Successfully generated " ++ str_int num_rows
                   ++ " rows of data in 'dummy_historical_data.csv'")%string])%list.
Proof.
  intros Hn.
  destruct (create_csv_file_effects h num_rows w)
    as (w' & rows & E & R & _ & _ & Ho & Hf & _).
  replace (Z.to_nat num_rows) with 0%nat in R by lia.
  cbn [generated_rows] in R. inversion R as [[Hrows Hrand]].
  exists w'. split; [exact E|]. split.
  - rewrite Hf, <- Hrows. cbn [csv_text fold_right].
    now rewrite append_nil_r.
  - split.
    + rewrite lines_csv_line, csv_record_plain;
        solve [reflexivity | apply Forall_plain_of_forallb, header_plain].
    + split; [now symmetry|exact Ho].
Qed.

Lemma create_csv_file_without_rows_witness :
  -3 <= 0
  /\ exists w',
       create_csv_file hash_by_length (Some (-3)) world0 = (Ok tt, w')
       /\ files w' csv_path = Some (csv_line header)
       /\ lines (csv_line header) = [quoted_record header]
       /\ rand w' = rand world0
       /\ stdout w'
          = (stdout world0
               ++ [("Successfully generated " ++ str_int (-3)
                      ++ " rows of data in 'dummy_historical_data.csv'")%string])%list.
Proof.
  split; [lia|].
  apply (create_csv_file_without_rows hash_by_length (-3) world0). lia.
Defined.

(** X2. The file is opened for writing afresh: what it held before does
    not show in what it holds after, and no other file is touched. *)
Theorem create_csv_file_overwrites (h : string -> Z) (num_rows : Z)
  (w : world) (old : string) :
  exists w1 w2 text,
    create_csv_file h (Some num_rows) w = (Ok tt, w1)
    /\ create_csv_file h (Some num_rows) (set_file csv_path old w)
       = (Ok tt, w2)
    /\ files w1 csv_path = Some text
    /\ files w2 csv_path = Some text
    /\ (forall p, String.eqb p csv_path = false ->
                  files w1 p = files w p /\ files w2 p = files w p).
Proof.
  destruct (create_csv_file_effects h num_rows w)
    as (w1 & rows1 & E1 & R1 & _ & _ & _ & F1 & P1).
  destruct (create_csv_file_effects h num_rows (set_file csv_path old w))
    as (w2 & rows2 & E2 & R2 & _ & _ & _ & F2 & P2).
  change (rand (set_file csv_path old w)) with (rand w) in R2.
  rewrite R1 in R2. inversion R2 as [[Hrows Hrand]].
  exists w1, w2, (csv_text (header :: rows1)).
  split; [exact E1|]. split; [exact E2|]. split; [exact F1|].
  split; [now rewrite F2, Hrows|].
  intros p Hp. split; [now apply P1|].
  rewrite (P2 p Hp). now apply files_set_file_other.
Qed.

(** X3. Two calls one after the other: the second replaces the file of
    the first, its rows are generated from the random source the first
    call left, and the two messages are printed in order. *)
Theorem create_csv_file_twice (h : string -> Z) (n1 n2 : Z) (w : world) :
  exists w1 w2 rows1 rows2,
    create_csv_file h (Some n1) w = (Ok tt, w1)
    /\ (create_csv_file h (Some n1) ;;; create_csv_file h (Some n2)) w
       = (Ok tt, w2)
    /\ generated_rows h (Z.to_nat n1) (rand w) = (rows1, rand w1)
    /\ generated_rows h (Z.to_nat n2) (rand w1) = (rows2, rand w2)
    /\ files w1 csv_path = Some (csv_text (header :: rows1))
    /\ files w2 csv_path = Some (csv_text (header :: rows2))
    /\ stdout w2
       = (stdout w ++ [success_message n1; success_message n2])%list.
Proof.
  destruct (create_csv_file_effects h n1 w)
    as (w1 & rows1 & E1 & R1 & _ & _ & O1 & F1 & _).
  destruct (create_csv_file_effects h n2 w1)
    as (w2 & rows2 & E2 & R2 & _ & _ & O2 & F2 & _).
  exists w1, w2, rows1, rows2.
  split; [exact E1|]. split; [now rewrite (bind_ok _ _ _ _ _ E1)|].
  split; [exact R1|]. split; [exact R2|]. split; [exact F1|].
  split; [exact F2|].
  rewrite O2, O1, <- app_assoc. reflexivity.
Qed.

Lemma row_pattern_length row : row_pattern row -> List.length row = 5%nat.
Proof. intros (f1 & f2 & f3 & f4 & f5 & -> & _). reflexivity. Qed.

(** X4. The file is rectangular: read back, it gives [n + 1] records of
    five fields each, the header included. *)
Theorem file_records_have_five_fields (h : string -> Z) (n : nat)
  (w : world) :
  exists w' text,
    create_csv_file h (Some (Z.of_nat n)) w = (Ok tt, w')
    /\ files w' csv_path = Some text
    /\ List.length (csv_reader text) = S n
    /\ Forall (fun record => List.length record = 5%nat) (csv_reader text).
Proof.
  destruct (create_csv_file_effects h (Z.of_nat n) w)
    as (w' & rows & E & _ & Hlen & Hpat & _ & Hf & _).
  exists w', (csv_text (header :: rows)).
  split; [exact E|]. split; [exact Hf|].
  rewrite csv_reader_writer. split.
  - cbn [List.length]. now rewrite Hlen, Nat2Z.id.
  - constructor; [reflexivity|].
    eapply Forall_impl; [|exact Hpat]. apply row_pattern_length.
Qed.

(** X9. Run as a script, the module calls [create_csv_file()]: the file
    gets 501 lines, the header and 500 rows that fit the field patterns,
    and the message names 500 rows. *)
Theorem main_writes_500_rows (h : string -> Z) (w : world) :
  exists w' text rows,
    main h w = (Ok tt, w')
    /\ files w' csv_path = Some text
    /\ List.length (lines text) = 501%nat
    /\ csv_reader text = header :: rows
    /\ List.length rows = 500%nat
    /\ Forall row_pattern rows
    /\ stdout w'
       = (stdout w
            ++ ["Successfully generated 500 rows of data in 'dummy_historical_data.csv'"])%list.
Proof.
  destruct (create_csv_file_effects h 500 w)
    as (w' & rows & E & _ & Hlen & Hpat & Ho & Hf & _).
  exists w', (csv_text (header :: rows)), rows.
  split; [exact E|]. split; [exact Hf|]. split.
  - rewrite (lines_csv_text _ (rows_plain rows Hpat)), length_map.
    cbn [List.length]. rewrite Hlen. reflexivity.
  - split; [apply csv_reader_writer|]. split; [rewrite Hlen; reflexivity|].
    split; [exact Hpat|]. rewrite Ho. reflexivity.
Qed.

(** * The generator over any lawful library *)

(** ** Selections *)

Lemma select_length population positions :
  List.length (select population positions) = List.length positions.
Proof. apply length_map. Qed.

Lemma select_incl population positions :
  Forall (fun i => (i < List.length population)%nat) positions ->
  incl (select population positions) population.
Proof.
  intros H x Hx. unfold select in Hx. apply in_map_iff in Hx.
  destruct Hx as (i & <- & Hi). rewrite Forall_forall in H.
  apply nth_In. now apply H.
Qed.

Lemma select_NoDup population positions :
  NoDup population -> NoDup positions ->
  Forall (fun i => (i < List.length population)%nat) positions ->
  NoDup (select population positions).
Proof.
  intros Hp Hn Hr. unfold select.
  induction Hn as [|i l Hi Hl IH]; cbn [map]; [constructor|].
  inversion Hr as [|? ? Hi' Hr']; subst. constructor; [|now apply IH].
  intros Hin. apply in_map_iff in Hin. destruct Hin as (j & E & Hj).
  rewrite Forall_forall in Hr'.
  apply (proj1 (NoDup_nth population EmptyString) Hp) in E;
    [subst j; contradiction|now apply Hr'|exact Hi'].
Qed.

Lemma select_all population :
  select population (seq 0 (List.length population)) = population.
Proof.
  unfold select. induction population as [|x l IH]; [reflexivity|].
  cbn [List.length seq map nth]. f_equal.
  rewrite <- seq_shift, map_map. exact IH.
Qed.

(** ** What the laws give on a call that returned *)

Section Laws.

Variable S : Type.
Variable lib : Library S.
Hypothesis lawful : Lawful lib.

Lemma randint_law a b s r s' :
  a <= b -> lib_randint lib a b s = (Ok r, s') -> a <= r <= b.
Proof.
  intros Hab E. destruct (law_randint lib lawful a b s Hab) as (r0 & s0 & E0 & H).
  rewrite E0 in E. now inversion E; subst.
Qed.

Lemma sample_law population k s l s' :
  0 <= k <= len population ->
  lib_sample lib population k s = (Ok l, s') ->
  List.length l = Z.to_nat k
  /\ incl l population
  /\ (NoDup population -> NoDup l).
Proof.
  intros Hk E.
  destruct (law_sample lib lawful (List.length population) k s Hk)
    as (positions & s0 & Hlen & Hnd & Hr & E0).
  rewrite (E0 population eq_refl) in E. inversion E; subst l s'.
  split; [now rewrite select_length|]. split.
  - now apply select_incl.
  - intros Hp. now apply select_NoDup.
Qed.

Lemma set_law_In xs x : In x (lib_list_of_set lib xs) <-> In x xs.
Proof. apply (law_list_of_set lib lawful). Qed.

Lemma set_law_NoDup xs : NoDup (lib_list_of_set lib xs).
Proof. apply (law_list_of_set lib lawful). Qed.

Lemma set_law_length_ge (base extra : list string) :
  NoDup base ->
  (List.length base <= List.length (lib_list_of_set lib (base ++ extra)))%nat.
Proof.
  intros Hb. apply NoDup_incl_length; [exact Hb|].
  intros x Hx. apply set_law_In, in_or_app. now left.
Qed.

Lemma tap_pool_law_size sub :
  48 <= len (lib_list_of_set lib (tap_only_beers ++ sub)).
Proof.
  pose proof (set_law_length_ge tap_only_beers sub tap_only_beers_NoDup) as H.
  change (List.length tap_only_beers) with 48%nat in H. unfold len. lia.
Qed.

Lemma can_pool_law_size sub :
  49 <= len (lib_list_of_set lib (can_only_beers ++ sub)).
Proof.
  pose proof (set_law_length_ge can_only_beers sub can_only_beers_NoDup) as H.
  change (List.length can_only_beers) with 49%nat in H. unfold len. lia.
Qed.

(** The calls of a run are the calls of [generate_random_data]: a run
    gives the row of its picks. *)
Lemma run_with_generate s p s' :
  run_with lib s p s' ->
  generate_random_data_with lib s = (Ok (row_of p), s').
Proof.
  intros R.
  destruct R as [st sc adj nn tops bn taps cans eid sid ext k1 k2 k3
                   s1 s2 s3 s4 s5 s6 s7 s8 s9 s10 s11 s12 s13 s14
                   E1 E2 E3 E4 E5 E6 E7 E8 E9 E10 E11 E12 E13 E14].
  unfold generate_random_data_with.
  run_step E1. run_step E2. run_step E3. run_step E4. run_step E5.
  run_step E6. run_step E7. run_step E8. run_step E9. run_step E10.
  run_step E11. run_step E12. run_step E13. run_step E14.
  reflexivity.
Qed.

(** Over a lawful library every call runs to its end. *)
Lemma run_with_exists s : exists p s', run_with lib s p s'.
Proof.
  assert (H15 : 0 <= Z.min (len shared_beers) 15 <= len shared_beers)
    by (vm_compute; intuition discriminate).
  destruct (law_sample lib lawful _ _ s H15) as (q1 & s1 & _ & _ & _ & E1).
  specialize (E1 shared_beers eq_refl).
  destruct (law_sample lib lawful _ _ s1 H15) as (q2 & s2 & _ & _ & _ & E2).
  specialize (E2 shared_beers eq_refl).
  destruct (law_choice lib lawful burger_adjectives s2)
    as (adj & s3 & E3 & _); [discriminate|].
  destruct (law_choice lib lawful burger_nouns s3)
    as (nn & s4 & E4 & _); [discriminate|].
  destruct (law_randint lib lawful 2 4 s4) as (k1 & s5 & E5 & H5); [lia|].
  destruct (law_sample lib lawful (List.length toppings) k1 s5)
    as (q6 & s6 & _ & _ & _ & E6).
  { change (Z.of_nat (List.length toppings)) with 32. lia. }
  specialize (E6 toppings eq_refl).
  destruct (law_choice lib lawful buns s6) as (bn & s7 & E7 & _);
    [discriminate|].
  destruct (law_randint lib lawful 1 4 s7) as (k2 & s8 & E8 & H8); [lia|].
  set (st := select shared_beers q1) in *.
  set (sc := select shared_beers q2) in *.
  destruct (law_sample lib lawful
              (List.length (lib_list_of_set lib (tap_only_beers ++ st))) k2 s8)
    as (q9 & s9 & _ & _ & _ & E9).
  { pose proof (tap_pool_law_size st) as Hs. unfold len in Hs. lia. }
  specialize (E9 _ eq_refl).
  destruct (law_randint lib lawful 4 6 s9) as (k3 & s10 & E10 & H10); [lia|].
  destruct (law_sample lib lawful
              (List.length (lib_list_of_set lib (can_only_beers ++ sc))) k3 s10)
    as (q11 & s11 & _ & _ & _ & E11).
  { pose proof (can_pool_law_size sc) as Hs. unfold len in Hs. lia. }
  specialize (E11 _ eq_refl).
  destruct (law_randint lib lawful 1000000 9999999 s11)
    as (eid & s12 & E12 & _); [lia|].
  destruct (law_randint lib lawful 100 999 s12)
    as (sid & s13 & E13 & _); [lia|].
  destruct (law_choice lib lawful sticker_types s13)
    as (ext & s14 & E14 & _); [discriminate|].
  eexists. exists s14.
  exact (run_with_intro S lib s _ _ _ _ _ _ _ _ _ _ _ _ _ _
           _ _ _ _ _ _ _ _ _ _ _ _ _ _
           E1 E2 E3 E4 E5 E6 E7 E8 E9 E10 E11 E12 E13 E14).
Qed.

End Laws.

(** ** The stand-ins are a lawful library *)

Lemma remove_at_map {A B} (f : A -> B) j (pool : list A) :
  remove_at j (map f pool) = map f (remove_at j pool).
Proof.
  revert j. induction pool as [|x t IH]; intros [|j]; cbn [map remove_at];
    try reflexivity.
  now rewrite IH.
Qed.

Lemma sample_loop_map {A B} (f : A -> B) k :
  forall (pool : list A) s l s',
    sample_loop k pool s = (Ok l, s') ->
    sample_loop k (map f pool) s = (Ok (map f l), s').
Proof.
  induction k as [|k IH]; intros pool s l s' E.
  - cbn [sample_loop] in *. unfold ret in *. now inversion E.
  - cbn [sample_loop] in *. unfold bind at 1 in E. unfold bind at 1.
    unfold randbelow in *. unfold len in *. rewrite length_map.
    rewrite nth_error_map.
    destruct (nth_error pool (Z.to_nat (tape s (pos s) mod Z.of_nat (List.length pool))))
      as [x|]; cbn [option_map]; [|discriminate E].
    unfold bind in *.
    destruct (sample_loop k
                (remove_at (Z.to_nat (tape s (pos s) mod Z.of_nat (List.length pool))) pool)
                (advance s)) as [[rest|e] s1] eqn:R; [|discriminate E].
    rewrite remove_at_map, (IH _ _ _ _ R).
    unfold ret in *. now inversion E.
Qed.

(** The stand-in for [sample] chooses positions: the selection from a
    population is the selection from its positions, read in the
    population. *)
Lemma sample_positions n k s :
  0 <= k <= Z.of_nat n ->
  exists positions s',
    List.length positions = Z.to_nat k
    /\ NoDup positions
    /\ Forall (fun i => (i < n)%nat) positions
    /\ forall population : list string,
         List.length population = n ->
         sample population k s = (Ok (select population positions), s').
Proof.
  intros Hk.
  destruct (sample_spec (seq 0 n) k s) as (positions & E & Hs).
  { unfold len. now rewrite length_seq. }
  exists positions, (skip (Z.to_nat k) s).
  split; [apply Hs|]. split; [|split].
  - eapply sample_of_NoDup; [apply seq_NoDup|exact Hs].
  - apply Forall_forall. intros i Hi.
    apply (sample_of_incl _ _ _ Hs), in_seq in Hi. lia.
  - intros population Hn. unfold sample in *. unfold len in *.
    rewrite length_seq in E. rewrite Hn.
    destruct ((k <? 0) || (Z.of_nat n <? k)); [discriminate E|].
    rewrite <- (select_all population) at 1. rewrite Hn. unfold select at 1.
    now apply sample_loop_map.
Qed.

Lemma stand_ins_lawful (lst : list string -> list string) :
  (forall xs, NoDup (lst xs) /\ forall x, In x (lst xs) <-> In x xs) ->
  Lawful (mkLibrary randint choice sample lst).
Proof.
  intros Hl. constructor; cbn [lib_randint lib_choice lib_sample lib_list_of_set].
  - intros a b s Hab. destruct (randint_spec a b s Hab) as (r & E & H).
    now exists r, (skip 1 s).
  - intros l s Hne. destruct (choice_spec l s Hne) as (x & E & H).
    now exists x, (skip 1 s).
  - apply sample_positions.
  - exact Hl.
Qed.

Lemma model_library_lawful h : Lawful (model_library h).
Proof.
  apply stand_ins_lawful. intros xs. split.
  - apply list_of_set_NoDup.
  - intros x. apply list_of_set_In.
Qed.

Lemma nodupb_NoDup l : nodupb l = true -> NoDup l.
Proof.
  unfold nodupb. intros H. apply Nat.eqb_eq in H.
  assert (E : nodup string_dec l = l).
  { clear -H. induction l as [|x l IH]; [reflexivity|].
    cbn [nodup] in *. destruct (in_dec string_dec x l) as [Hin|Hout].
    - pose proof (NoDup_incl_length (NoDup_nodup string_dec l)
                    (fun y Hy => proj1 (nodup_In string_dec l y) Hy)) as Hle.
      cbn [List.length] in H. lia.
    - cbn [List.length] in H. f_equal. apply IH. lia. }
  rewrite <- E. apply NoDup_nodup.
Qed.

Lemma table_list_of_set_law table xs :
  NoDup (table_list_of_set table xs)
  /\ forall x, In x (table_list_of_set table xs) <-> In x xs.
Proof.
  unfold table_list_of_set.
  destruct (find _ table) as [o|] eqn:F.
  - apply find_some in F. destruct F as (_ & F).
    apply andb_true_iff in F. destruct F as (Hn & Hs).
    unfold same_elements in Hs. apply andb_true_iff in Hs.
    destruct Hs as (H1 & H2). rewrite forallb_forall in H1, H2.
    split; [now apply nodupb_NoDup|].
    intros x. split; intros Hx.
    + apply mem_In. now apply H1.
    + apply mem_In. now apply H2.
  - split; [apply NoDup_nodup|]. intros x. apply nodup_In.
Qed.

Lemma library_seed1_lawful : Lawful library_seed1.
Proof. apply stand_ins_lawful. intros xs. apply table_list_of_set_law. Qed.


(** The generator of the first part is the generator over the library of
    the stand-ins. *)
Lemma model_library_calls h :
  lib_sample (model_library h) = sample
  /\ lib_choice (model_library h) = choice
  /\ lib_randint (model_library h) = randint
  /\ lib_list_of_set (model_library h) = list_of_set h.
Proof. repeat split. Qed.

Lemma generate_random_data_model h s :
  generate_random_data h s = generate_random_data_with (model_library h) s.
Proof.
  destruct (model_library_calls h) as (Es & Ec & Er & El).
  unfold generate_random_data_with. rewrite Es, Ec, Er, El. reflexivity.
Qed.

(** ** Two libraries that differ in their sets only *)

Lemma same_result {S A} (m : M S A) s a b t u :
  m s = (Ok a, t) -> m s = (Ok b, u) -> a = b /\ t = u.
Proof. intros E1 E2. rewrite E1 in E2. now inversion E2. Qed.

Lemma lawful_sets_same_length (lst1 lst2 : list string -> list string) xs :
  (NoDup (lst1 xs) /\ forall x, In x (lst1 xs) <-> In x xs) ->
  (NoDup (lst2 xs) /\ forall x, In x (lst2 xs) <-> In x xs) ->
  List.length (lst1 xs) = List.length (lst2 xs).
Proof.
  intros (N1 & I1) (N2 & I2). apply Nat.le_antisymm.
  - apply NoDup_incl_length; [exact N1|]. intros x Hx. apply I2, I1, Hx.
  - apply NoDup_incl_length; [exact N2|]. intros x Hx. apply I1, I2, Hx.
Qed.

Section TwoLibraries.

Variable S : Type.
Variable ri : Z -> Z -> M S Z.
Variable ch : list string -> M S string.
Variable sm : list string -> Z -> M S (list string).
Variables lst1 lst2 : list string -> list string.

Let lib1 := mkLibrary ri ch sm lst1.
Let lib2 := mkLibrary ri ch sm lst2.

Hypothesis lawful1 : Lawful lib1.
Hypothesis lawful2 : Lawful lib2.

(** The runs of the two libraries from one state go side by side: the
    same picks but for the beers selected, which stand at the same
    positions of the two listings of the pools; and the same state at
    the end. *)
Lemma runs_side_by_side s p1 t1 p2 t2 :
  run_with lib1 s p1 t1 -> run_with lib2 s p2 t2 ->
  t1 = t2
  /\ sub_tap p1 = sub_tap p2
  /\ sub_can p1 = sub_can p2
  /\ adjective p1 = adjective p2
  /\ noun p1 = noun p2
  /\ selected_toppings p1 = selected_toppings p2
  /\ bun p1 = bun p2
  /\ event_id p1 = event_id p2
  /\ sticker_id p1 = sticker_id p2
  /\ sticker_type p1 = sticker_type p2
  /\ exists positions_t positions_c,
       selected_tap_beers p1
       = select (lst1 (tap_only_beers ++ sub_tap p1)) positions_t
       /\ selected_tap_beers p2
          = select (lst2 (tap_only_beers ++ sub_tap p1)) positions_t
       /\ selected_can_beers p1
          = select (lst1 (can_only_beers ++ sub_can p1)) positions_c
       /\ selected_can_beers p2
          = select (lst2 (can_only_beers ++ sub_can p1)) positions_c.
Proof.
  intros R1 R2.
  destruct R1 as [st sc adj nn tops bn taps cans eid sid ext k1 k2 k3
                    a1 a2 a3 a4 a5 a6 a7 a8 a9 a10 a11 a12 a13 a14
                    A1 A2 A3 A4 A5 A6 A7 A8 A9 A10 A11 A12 A13 A14].
  destruct R2 as [st' sc' adj' nn' tops' bn' taps' cans' eid' sid' ext'
                    k1' k2' k3'
                    b1 b2 b3 b4 b5 b6 b7 b8 b9 b10 b11 b12 b13 b14
                    B1 B2 B3 B4 B5 B6 B7 B8 B9 B10 B11 B12 B13 B14].
  unfold lib1, lib2 in *.
  cbn [lib_randint lib_choice lib_sample lib_list_of_set] in *.
  destruct (same_result _ _ _ _ _ _ A1 B1) as [<- <-].
  destruct (same_result _ _ _ _ _ _ A2 B2) as [<- <-].
  destruct (same_result _ _ _ _ _ _ A3 B3) as [<- <-].
  destruct (same_result _ _ _ _ _ _ A4 B4) as [<- <-].
  destruct (same_result _ _ _ _ _ _ A5 B5) as [<- <-].
  destruct (same_result _ _ _ _ _ _ A6 B6) as [<- <-].
  destruct (same_result _ _ _ _ _ _ A7 B7) as [<- <-].
  destruct (same_result _ _ _ _ _ _ A8 B8) as [<- <-].
  assert (Hk2 : 1 <= k2 <= 4)
    by (eapply (randint_law S lib1 lawful1 1 4); [lia|exact A8]).
  destruct (law_sample lib1 lawful1 (List.length (lst1 (tap_only_beers ++ st)))
              k2 a8) as (qt & u9 & _ & _ & _ & Qt).
  { pose proof (tap_pool_law_size S lib1 lawful1 st) as Hs.
    unfold len, lib1 in Hs. cbn [lib_list_of_set] in Hs. lia. }
  cbn [lib_sample] in Qt.
  pose proof (Qt _ eq_refl) as Qt1.
  pose proof (Qt (lst2 (tap_only_beers ++ st))
                (eq_sym (lawful_sets_same_length lst1 lst2 _
                           (law_list_of_set lib1 lawful1 _)
                           (law_list_of_set lib2 lawful2 _)))) as Qt2.
  destruct (same_result _ _ _ _ _ _ A9 Qt1) as [-> ->].
  destruct (same_result _ _ _ _ _ _ B9 Qt2) as [-> ->].
  destruct (same_result _ _ _ _ _ _ A10 B10) as [<- <-].
  assert (Hk3 : 4 <= k3 <= 6)
    by (eapply (randint_law S lib1 lawful1 4 6); [lia|exact A10]).
  destruct (law_sample lib1 lawful1 (List.length (lst1 (can_only_beers ++ sc)))
              k3 a10) as (qc & u11 & _ & _ & _ & Qc).
  { pose proof (can_pool_law_size S lib1 lawful1 sc) as Hs.
    unfold len, lib1 in Hs. cbn [lib_list_of_set] in Hs. lia. }
  cbn [lib_sample] in Qc.
  pose proof (Qc _ eq_refl) as Qc1.
  pose proof (Qc (lst2 (can_only_beers ++ sc))
                (eq_sym (lawful_sets_same_length lst1 lst2 _
                           (law_list_of_set lib1 lawful1 _)
                           (law_list_of_set lib2 lawful2 _)))) as Qc2.
  destruct (same_result _ _ _ _ _ _ A11 Qc1) as [-> ->].
  destruct (same_result _ _ _ _ _ _ B11 Qc2) as [-> ->].
  destruct (same_result _ _ _ _ _ _ A12 B12) as [<- <-].
  destruct (same_result _ _ _ _ _ _ A13 B13) as [<- <-].
  destruct (same_result _ _ _ _ _ _ A14 B14) as [<- <-].
  cbn [sub_tap sub_can adjective noun selected_toppings bun
       selected_tap_beers selected_can_beers event_id sticker_id
       sticker_type].
  repeat (split; [reflexivity|]).
  exists qt, qc. repeat split.
Qed.

End TwoLibraries.

(** ** The beer fields *)

(** C3. Whatever the library, as long as it is lawful: in every call the
    tap pool is the set of the tap-only list and of the subsample of the
    shared list that [sample] returns at the start of this call, of size
    min(15, size of the shared list), so that it is drawn again in each
    call; the second field joins with ", " the beers that [sample]
    returns from that pool for a count drawn in [1, 4]: between one and
    four pairwise distinct beers of the pool. *)
Theorem tap_beers_shape (S : Type) (lib : Library S) (s : S) :
  Lawful lib ->
  exists p s' s1 k s7 s8 s9,
    run_with lib s p s'
    /\ generate_random_data_with lib s = (Ok (row_of p), s')
    /\ nth_error (row_of p) 1 = Some (join ", " (selected_tap_beers p))
    /\ lib_sample lib shared_beers (Z.min (len shared_beers) 15) s
       = (Ok (sub_tap p), s1)
    /\ len (sub_tap p) = Z.min 15 (len shared_beers)
    /\ NoDup (sub_tap p)
    /\ incl (sub_tap p) shared_beers
    /\ NoDup (lib_list_of_set lib (tap_only_beers ++ sub_tap p))
    /\ (forall x,
           In x (lib_list_of_set lib (tap_only_beers ++ sub_tap p))
           <-> In x tap_only_beers \/ In x (sub_tap p))
    /\ lib_randint lib 1 4 s7 = (Ok k, s8)
    /\ 1 <= k <= 4
    /\ lib_sample lib (lib_list_of_set lib (tap_only_beers ++ sub_tap p)) k s8
       = (Ok (selected_tap_beers p), s9)
    /\ List.length (selected_tap_beers p) = Z.to_nat k
    /\ NoDup (selected_tap_beers p)
    /\ incl (selected_tap_beers p)
         (lib_list_of_set lib (tap_only_beers ++ sub_tap p)).
Proof.
  intros L.
  destruct (run_with_exists S lib L s) as (p & s' & R).
  pose proof (run_with_generate S lib s p s' R) as G.
  pose proof R as R0.
  destruct R as [st sc adj nn tops bn taps cans eid sid ext k1 k2 k3
                   s1 s2 s3 s4 s5 s6 s7 s8 s9 s10 s11 s12 s13 s14
                   E1 E2 E3 E4 E5 E6 E7 E8 E9 E10 E11 E12 E13 E14].
  assert (H15 : 0 <= Z.min (len shared_beers) 15 <= len shared_beers)
    by (vm_compute; intuition discriminate).
  destruct (sample_law S lib L _ _ _ _ _ H15 E1) as (Hlen & Hincl & Hnd).
  assert (Hk : 1 <= k2 <= 4)
    by (eapply (randint_law S lib L 1 4); [lia|exact E8]).
  assert (Hp : 0 <= k2 <= len (lib_list_of_set lib (tap_only_beers ++ st)))
    by (pose proof (tap_pool_law_size S lib L st); lia).
  destruct (sample_law S lib L _ _ _ _ _ Hp E9) as (Hl & Hi & Hn).
  exists (mkPicks st sc adj nn tops bn taps cans eid sid ext),
    s14, s1, k2, s7, s8, s9.
  cbn [sub_tap selected_tap_beers].
  split; [exact R0|]. split; [exact G|]. split; [reflexivity|].
  split; [exact E1|].
  split; [unfold len in *; rewrite Hlen; reflexivity|].
  split; [exact (Hnd shared_beers_NoDup)|]. split; [exact Hincl|].
  split; [apply (set_law_NoDup S lib L)|].
  split.
  { intros x. rewrite (set_law_In S lib L). apply in_app_iff. }
  split; [exact E8|]. split; [exact Hk|]. split; [exact E9|].
  split; [exact Hl|]. split; [|exact Hi].
  apply Hn, (set_law_NoDup S lib L).
Qed.

Lemma tap_beers_shape_witness :
  Lawful library_seed1
  /\ exists p s' s1 k s7 s8 s9,
       run_with library_seed1 steady_source p s'
       /\ generate_random_data_with library_seed1 steady_source
          = (Ok (row_of p), s')
       /\ nth_error (row_of p) 1 = Some (join ", " (selected_tap_beers p))
       /\ lib_sample library_seed1 shared_beers
            (Z.min (len shared_beers) 15) steady_source
          = (Ok (sub_tap p), s1)
       /\ len (sub_tap p) = Z.min 15 (len shared_beers)
       /\ NoDup (sub_tap p)
       /\ incl (sub_tap p) shared_beers
       /\ NoDup (lib_list_of_set library_seed1 (tap_only_beers ++ sub_tap p))
       /\ (forall x,
              In x (lib_list_of_set library_seed1
                      (tap_only_beers ++ sub_tap p))
              <-> In x tap_only_beers \/ In x (sub_tap p))
       /\ lib_randint library_seed1 1 4 s7 = (Ok k, s8)
       /\ 1 <= k <= 4
       /\ lib_sample library_seed1
            (lib_list_of_set library_seed1 (tap_only_beers ++ sub_tap p))
            k s8
          = (Ok (selected_tap_beers p), s9)
       /\ List.length (selected_tap_beers p) = Z.to_nat k
       /\ NoDup (selected_tap_beers p)
       /\ incl (selected_tap_beers p)
            (lib_list_of_set library_seed1 (tap_only_beers ++ sub_tap p)).
Proof.
  split; [exact library_seed1_lawful|].
  exact (tap_beers_shape rng library_seed1 steady_source library_seed1_lawful).
Defined.

(** C4. Whatever the lawful library: in every call the can pool is the
    set of the can-only list and of a second subsample of the shared
    list, of size min(15, size of the shared list): [sample] is called
    once more on the whole shared list, on the state its first call
    left.  The third field joins with ", " the beers that [sample]
    returns from that pool for a count drawn in [4, 6]: between four and
    six pairwise distinct beers of the pool. *)
Theorem can_beers_shape (S : Type) (lib : Library S) (s : S) :
  Lawful lib ->
  exists p s' s1 s2 k s9 s10 s11,
    run_with lib s p s'
    /\ generate_random_data_with lib s = (Ok (row_of p), s')
    /\ nth_error (row_of p) 2 = Some (join ", " (selected_can_beers p))
    /\ lib_sample lib shared_beers (Z.min (len shared_beers) 15) s
       = (Ok (sub_tap p), s1)
    /\ lib_sample lib shared_beers (Z.min (len shared_beers) 15) s1
       = (Ok (sub_can p), s2)
    /\ len (sub_can p) = Z.min 15 (len shared_beers)
    /\ NoDup (sub_can p)
    /\ incl (sub_can p) shared_beers
    /\ NoDup (lib_list_of_set lib (can_only_beers ++ sub_can p))
    /\ (forall x,
           In x (lib_list_of_set lib (can_only_beers ++ sub_can p))
           <-> In x can_only_beers \/ In x (sub_can p))
    /\ lib_randint lib 4 6 s9 = (Ok k, s10)
    /\ 4 <= k <= 6
    /\ lib_sample lib (lib_list_of_set lib (can_only_beers ++ sub_can p)) k s10
       = (Ok (selected_can_beers p), s11)
    /\ List.length (selected_can_beers p) = Z.to_nat k
    /\ NoDup (selected_can_beers p)
    /\ incl (selected_can_beers p)
         (lib_list_of_set lib (can_only_beers ++ sub_can p)).
Proof.
  intros L.
  destruct (run_with_exists S lib L s) as (p & s' & R).
  pose proof (run_with_generate S lib s p s' R) as G.
  pose proof R as R0.
  destruct R as [st sc adj nn tops bn taps cans eid sid ext k1 k2 k3
                   s1 s2 s3 s4 s5 s6 s7 s8 s9 s10 s11 s12 s13 s14
                   E1 E2 E3 E4 E5 E6 E7 E8 E9 E10 E11 E12 E13 E14].
  assert (H15 : 0 <= Z.min (len shared_beers) 15 <= len shared_beers)
    by (vm_compute; intuition discriminate).
  destruct (sample_law S lib L _ _ _ _ _ H15 E2) as (Hlen & Hincl & Hnd).
  assert (Hk : 4 <= k3 <= 6)
    by (eapply (randint_law S lib L 4 6); [lia|exact E10]).
  assert (Hp : 0 <= k3 <= len (lib_list_of_set lib (can_only_beers ++ sc)))
    by (pose proof (can_pool_law_size S lib L sc); lia).
  destruct (sample_law S lib L _ _ _ _ _ Hp E11) as (Hl & Hi & Hn).
  exists (mkPicks st sc adj nn tops bn taps cans eid sid ext),
    s14, s1, s2, k3, s9, s10, s11.
  cbn [sub_tap sub_can selected_can_beers].
  split; [exact R0|]. split; [exact G|]. split; [reflexivity|].
  split; [exact E1|]. split; [exact E2|].
  split; [unfold len in *; rewrite Hlen; reflexivity|].
  split; [exact (Hnd shared_beers_NoDup)|]. split; [exact Hincl|].
  split; [apply (set_law_NoDup S lib L)|].
  split.
  { intros x. rewrite (set_law_In S lib L). apply in_app_iff. }
  split; [exact E10|]. split; [exact Hk|]. split; [exact E11|].
  split; [exact Hl|]. split; [|exact Hi].
  apply Hn, (set_law_NoDup S lib L).
Qed.

Lemma can_beers_shape_witness :
  Lawful library_seed1
  /\ exists p s' s1 s2 k s9 s10 s11,
       run_with library_seed1 steady_source p s'
       /\ generate_random_data_with library_seed1 steady_source
          = (Ok (row_of p), s')
       /\ nth_error (row_of p) 2 = Some (join ", " (selected_can_beers p))
       /\ lib_sample library_seed1 shared_beers
            (Z.min (len shared_beers) 15) steady_source
          = (Ok (sub_tap p), s1)
       /\ lib_sample library_seed1 shared_beers
            (Z.min (len shared_beers) 15) s1
          = (Ok (sub_can p), s2)
       /\ len (sub_can p) = Z.min 15 (len shared_beers)
       /\ NoDup (sub_can p)
       /\ incl (sub_can p) shared_beers
       /\ NoDup (lib_list_of_set library_seed1 (can_only_beers ++ sub_can p))
       /\ (forall x,
              In x (lib_list_of_set library_seed1
                      (can_only_beers ++ sub_can p))
              <-> In x can_only_beers \/ In x (sub_can p))
       /\ lib_randint library_seed1 4 6 s9 = (Ok k, s10)
       /\ 4 <= k <= 6
       /\ lib_sample library_seed1
            (lib_list_of_set library_seed1 (can_only_beers ++ sub_can p))
            k s10
          = (Ok (selected_can_beers p), s11)
       /\ List.length (selected_can_beers p) = Z.to_nat k
       /\ NoDup (selected_can_beers p)
       /\ incl (selected_can_beers p)
            (lib_list_of_set library_seed1 (can_only_beers ++ sub_can p)).
Proof.
  split; [exact library_seed1_lawful|].
  exact (can_beers_shape rng library_seed1 steady_source library_seed1_lawful).
Defined.

(** * Purity *)






(** ** More rows from the same random source *)




(** ** Nothing makes rows differ *)

Lemma steady_agree m n :
  agree n (mkRng (tape steady_source) (49 * m)) steady_source.
Proof.
  intros i _. cbn [tape pos steady_source Nat.add].
  f_equal. replace (49 * m + i)%nat with (i + m * 49)%nat by lia.
  apply Nat.Div0.mod_add.
Qed.

(** One call on [steady_source] takes its 49 draws, whatever the order of
    the sets. *)
Lemma steady_first_call h :
  exists row,
    generate_random_data h steady_source = (Ok row, skip 49 steady_source).
Proof.
  destruct (run_with_exists rng (model_library h) (model_library_lawful h)
              steady_source) as (p1 & t1 & R1).
  destruct (run_with_exists rng (model_library hash_constant)
              (model_library_lawful hash_constant) steady_source)
    as (p2 & t2 & R2).
  destruct (runs_side_by_side rng randint choice sample
              (list_of_set h) (list_of_set hash_constant)
              (model_library_lawful h) (model_library_lawful hash_constant)
              _ _ _ _ _ R1 R2) as (Et & _).
  pose proof (run_with_generate rng _ _ _ _ R1) as G1.
  pose proof (run_with_generate rng _ _ _ _ R2) as G2.
  assert (C : snd (generate_random_data_with (model_library hash_constant)
                     steady_source) = skip 49 steady_source)
    by (vm_compute; reflexivity).
  rewrite G2 in C. cbn [snd] in C. subst t2 t1.
  exists (row_of p1). now rewrite generate_random_data_model.
Qed.

Lemma steady_call h row m :
  generate_random_data h steady_source = (Ok row, skip 49 steady_source) ->
  generate_random_data h (mkRng (tape steady_source) (49 * m))
  = (Ok row, mkRng (tape steady_source) (49 * S m)).
Proof.
  intros E.
  destruct (generate_reads h _ _ (steady_agree m 53)) as (Ef & j & _ & E1 & E2).
  rewrite E in Ef, E2. cbn [fst snd] in Ef, E2.
  assert (Hj : j = 49%nat).
  { apply (f_equal pos) in E2. cbn [pos skip steady_source] in E2. lia. }
  subst j.
  destruct (generate_random_data h (mkRng (tape steady_source) (49 * m)))
    as [r t]. cbn [fst snd] in Ef, E1. subst r t.
  unfold skip. cbn [tape pos]. do 2 f_equal. lia.
Qed.

Lemma generated_rows_steady h row :
  generate_random_data h steady_source = (Ok row, skip 49 steady_source) ->
  forall n m,
    fst (generated_rows h n (mkRng (tape steady_source) (49 * m)))
    = repeat row n.
Proof.
  intros E. induction n as [|n IH]; intros m; [reflexivity|].
  pose proof (steady_call h row m E) as Em.
  destruct (generated_rows_spec h n (mkRng (tape steady_source) (49 * S m)))
    as (rows & s' & R & _).
  rewrite (generated_rows_step _ _ _ _ _ _ _ Em R). cbn [fst repeat].
  f_equal. specialize (IH (S m)). now rewrite R in IH.
Qed.

(** X11. Rows are not kept apart from one another: on a random source
    that delivers the draws of one call again and again, every row of a
    run is the same row. *)
Theorem rows_can_repeat (h : string -> Z) (n : nat) :
  exists row,
    fst (generate_random_data h steady_source) = Ok row
    /\ fst (generated_rows h n steady_source) = repeat row n.
Proof.
  destruct (steady_first_call h) as (row & E).
  exists row. split; [now rewrite E|].
  exact (generated_rows_steady h row E n 0).
Qed.

(** * Further properties of the file format *)

Lemma count_char_app c a b :
  count_char c (a ++ b) = (count_char c a + count_char c b)%nat.
Proof.
  induction a as [|d a IH]; cbn [append count_char]; [reflexivity|].
  rewrite IH. lia.
Qed.

Lemma count_char_absent (p : ascii -> bool) c x :
  p c = false -> all_chars p x = true -> count_char c x = 0%nat.
Proof.
  intros Hc. induction x as [|d x IH]; cbn [all_chars count_char];
    [reflexivity|].
  intros H. apply andb_true_iff in H. destruct H as [Hd Hx].
  destruct (Ascii.eqb_spec d c) as [->|_]; [congruence|].
  now rewrite IH.
Qed.

Lemma quoted_record_counts row :
  Forall (fun f => plain_field f = true) row ->
  count_char dquote (quoted_record row) = (2 * List.length row)%nat
  /\ S (count_char semicolon (quoted_record row)) = List.length row
     \/ row = [].
Proof.
  intros H. induction H as [|f row Hf Hrow IH]; [now right|]. left.
  apply plain_field_chars in Hf.
  assert (Qd : count_char dquote
                 (String dquote (f ++ String dquote EmptyString)) = 2%nat).
  { cbn [count_char]. rewrite count_char_app.
    rewrite (count_char_absent plain_char dquote f) by (reflexivity || exact Hf).
    reflexivity. }
  assert (Qs : count_char semicolon
                 (String dquote (f ++ String dquote EmptyString)) = 0%nat).
  { cbn [count_char]. rewrite count_char_app.
    rewrite (count_char_absent plain_char semicolon f)
      by (reflexivity || exact Hf).
    reflexivity. }
  unfold quoted_record, join in *. cbn [map String.concat].
  destruct row as [|g row].
  - cbn [map]. rewrite Qd, Qs. split; reflexivity.
  - destruct IH as [[IHd IHs]|IH]; [|discriminate IH].
    cbn [map] in *. rewrite !count_char_app, Qd, Qs, IHd.
    change (count_char dquote ";") with 0%nat.
    change (count_char semicolon ";") with 1%nat.
    cbn [List.length] in *. split; lia.
Qed.

(** X13. No field holds a separator or a quote, so the separators can be
    counted: every line of the file has exactly four ";" and ten double
    quotes. *)
Theorem file_lines_have_four_separators (h : string -> Z) (n : nat)
  (w : world) :
  exists w' text,
    create_csv_file h (Some (Z.of_nat n)) w = (Ok tt, w')
    /\ files w' csv_path = Some text
    /\ List.length (lines text) = S n
    /\ Forall (fun line => count_char semicolon line = 4%nat
                           /\ count_char dquote line = 10%nat)
         (lines text).
Proof.
  destruct (create_csv_file_effects h (Z.of_nat n) w)
    as (w' & rows & E & _ & Hlen & Hpat & _ & Hf & _).
  pose proof (rows_plain rows Hpat) as Hplain.
  exists w', (csv_text (header :: rows)).
  split; [exact E|]. split; [exact Hf|].
  rewrite (lines_csv_text _ Hplain), (map_csv_record_plain _ Hplain).
  split.
  - rewrite length_map. cbn [List.length]. now rewrite Hlen, Nat2Z.id.
  - apply Forall_map.
    assert (H5 : Forall (fun r => List.length r = 5%nat) (header :: rows)).
    { constructor; [reflexivity|].
      eapply Forall_impl; [|exact Hpat]. apply row_pattern_length. }
    rewrite Forall_forall in *. intros row Hrow.
    specialize (Hplain row Hrow). specialize (H5 row Hrow).
    destruct (quoted_record_counts row Hplain) as [[Hd Hs]|Hnil].
    + lia.
    + subst row. discriminate H5.
Qed.

(** X14. A beer that a row offers both on tap and in a can is a shared
    beer: the tap-only and the can-only list have nothing in common. *)
Theorem only_shared_beers_come_twice (h : string -> Z) (s : rng) :
  exists row s' taps cans,
    generate_random_data h s = (Ok row, s')
    /\ nth_error row 1 = Some (join ", " taps)
    /\ nth_error row 2 = Some (join ", " cans)
    /\ (forall x, In x taps -> In x cans -> In x shared_beers).
Proof.
  destruct (generate_run h s) as (p & j & E & V & _).
  destruct V as [st sc adj nn tops bn taps cans eid sid ext k1 k2 k3
                   s1 s2 s3 Est Esc _ _ _ _ _ _ Etaps _ Ecans _ _ _].
  destruct (subsample_facts _ _ _ Est) as (_ & _ & _ & It).
  destruct (subsample_facts _ _ _ Esc) as (_ & _ & _ & Ic).
  exists (row_of (mkPicks st sc adj nn tops bn taps cans eid sid ext)),
    (skip j s), taps, cans.
  split; [exact E|]. split; [reflexivity|]. split; [reflexivity|].
  intros x Ht Hc.
  apply (sample_of_incl _ _ _ (proj1 (proj2 (sample_ok _ _ _ _ _ Etaps))))
    in Ht.
  apply (sample_of_incl _ _ _ (proj1 (proj2 (sample_ok _ _ _ _ _ Ecans))))
    in Hc.
  apply pool_In in Ht, Hc.
  destruct Ht as [Ht|Ht]; [|now apply It].
  destruct Hc as [Hc|Hc]; [|now apply Ic].
  exfalso. exact (disjointb_spec _ _ _ tap_only_not_can_only Ht Hc).
Qed.
